(** * company_news.query: the fan-out / fan-in batch of news lookups

    A shallow embedding of [src/company_news/query.py]: the remote unit
    [query], the entry point [enter], [run_batch] and the polling loop of
    [batch], with the Ray executor, the OpenAI call and the kodosumi tracer
    as an explicit world and an explicit trace of effects. *)

From Stdlib Require Import ZArith List String Ascii Bool Arith Lia.
From Stdlib Require Import Permutation DecimalString.
From Stdlib Require Import Floats.SpecFloat.
Import ListNotations.

Local Open Scope string_scope.
Local Open Scope list_scope.

(** ** Python strings

    A [str] is modelled as a Rocq [string] whose characters stand for the
    code points below 256. *)
Module PyStr.

(** [str.isspace] on one character: the code points below 256 that Python
    counts as whitespace. *)
Definition isspace (c : ascii) : bool :=
  let n := nat_of_ascii c in
  (((9 <=? n) && (n <=? 13)) || ((28 <=? n) && (n <=? 32))
   || (n =? 133) || (n =? 160))%nat.

(** [s.lstrip()] *)
Fixpoint lstrip (s : string) : string :=
  match s with
  | EmptyString => EmptyString
  | String c r => if isspace c then lstrip r else s
  end.

(** [s.rstrip()] *)
Fixpoint rstrip (s : string) : string :=
  match s with
  | EmptyString => EmptyString
  | String c r =>
      match rstrip r with
      | EmptyString => if isspace c then EmptyString else String c EmptyString
      | r' => String c r'
      end
  end.

(** [s.strip()] *)
Definition strip (s : string) : string := rstrip (lstrip s).

(** Truth value of a [str]: the empty string is falsy. *)
Definition truthy (s : string) : bool :=
  match s with EmptyString => false | _ => true end.

(** [s.split(sep)] for a one-character separator: the pieces between the
    separators, empty pieces kept, never the empty list. *)
Fixpoint split (sep : ascii) (s : string) : list string :=
  match s with
  | EmptyString => [EmptyString]
  | String c r =>
      if Ascii.eqb c sep then EmptyString :: split sep r
      else match split sep r with
           | [] => [String c EmptyString]
           | p :: ps => String c p :: ps
           end
  end.

Definition LF : ascii := ascii_of_nat 10.
Definition dquote : string := String (ascii_of_nat 34) EmptyString.
Definition newline : string := String LF EmptyString.

(** [str(n)] for an [int]. *)
Definition of_Z (z : Z) : string := NilZero.string_of_int (Z.to_int z).
Definition of_nat (n : nat) : string := of_Z (Z.of_nat n).

(** Decimal digits of [z] left-padded with zeros to at least [w] places
    ([z] non-negative). *)
Fixpoint zeros (n : nat) : string :=
  match n with O => EmptyString | S k => String "0" (zeros k) end.

Definition pad0 (w : nat) (z : Z) : string :=
  let d := of_Z z in zeros (w - String.length d) ++ d.

End PyStr.

(** ** Dates *)

(** A [datetime.datetime]: the calendar date and the microseconds elapsed
    since midnight. *)
Record datetime : Type := mkDate {
  year : Z;
  month : Z;
  day : Z;
  micros : Z
}.

(** [a > b] on datetimes: lexicographic on the fields. *)
Definition datetime_gt (a b : datetime) : bool :=
  match Z.compare (year a) (year b) with
  | Gt => true | Lt => false
  | Eq =>
    match Z.compare (month a) (month b) with
    | Gt => true | Lt => false
    | Eq =>
      match Z.compare (day a) (day b) with
      | Gt => true | Lt => false
      | Eq => Z.gtb (micros a) (micros b)
      end
    end
  end.

(** [d.strftime("%Y-%m-%d")] (the year is printed in four places for the
    years 1000..9999). *)
Definition strftime_ymd (d : datetime) : string :=
  PyStr.pad0 4 (year d) ++ "-" ++ PyStr.pad0 2 (month d) ++ "-" ++ PyStr.pad0 2 (day d).

(** ** Exceptions and values *)

(** What kodosumi's [InputsError] carries: for a form field, the messages
    added under its name. *)
Definition field_errors : Type := list (string * list string).

(** A raised Python exception: its class name, [str(e)], and the field
    errors when it is an [InputsError]. *)
Record exn : Type := mkExn {
  exc_class : string;
  exc_message : string;
  exc_errors : field_errors
}.

(** ** Floats: binary64 as Python's [float] *)
Module PyFloat.

Definition prec : Z := 53.
Definition emax : Z := 1024.

(** [float(n)] for a non-negative [int], rounded to nearest even. *)
Definition of_nat (n : nat) : spec_float :=
  binary_normalize prec emax (Z.of_nat n) 0 false.

Definition hundred : spec_float := binary_normalize prec emax 100 0 false.

Definition div : spec_float -> spec_float -> spec_float := SFdiv prec emax.
Definition mul : spec_float -> spec_float -> spec_float := SFmul prec emax.

(** The integer nearest to the finite float [m * 2^e], ties to even: the
    digits that the format spec [.0f] prints. *)
Definition round_half_even (m : positive) (e : Z) : Z :=
  match e with
  | Zneg k =>
      let d := Z.pow_pos 2 k in
      let q := Z.div (Zpos m) d in
      let r := Z.modulo (Zpos m) d in
      match Z.compare (2 * r) d with
      | Lt => q
      | Gt => q + 1
      | Eq => if Z.even q then q else q + 1
      end
  | _ => Zpos m * Z.pow 2 e
  end.

(** [format(x, ".0f")] *)
Definition format_0f (x : spec_float) : string :=
  match x with
  | S754_zero s => if s then "-0" else "0"
  | S754_infinity s => if s then "-inf" else "inf"
  | S754_nan => "nan"
  | S754_finite s m e =>
      (if s then "-" else "") ++ PyStr.of_Z (round_half_even m e)
  end.

End PyFloat.

(** The values that flow through the program's dicts. *)
Inductive value : Type :=
| VNone
| VStr (s : string)
| VDate (d : datetime)
| VFloat (x : spec_float)
| VExc (e : exn)
| VDump (json : string)        (* [response.model_dump()], kept opaque *)
| VTexts (l : list string).    (* a list of str *)

(** Truth value of an object, as [if v:] tests it. *)
Definition truthy (v : value) : bool :=
  match v with
  | VNone => false
  | VStr s => PyStr.truthy s
  | VDate _ => true
  | VFloat (S754_zero _) => false
  | VFloat _ => true
  | VExc _ => true
  | VDump _ => true
  | VTexts [] => false
  | VTexts _ => true
  end.

(** [str(v)] as an f-string field prints it, for the kinds this program
    formats: a str, [None] and an exception; the other kinds are never
    formatted here and are shown by their type name. *)
Definition py_str (v : value) : string :=
  match v with
  | VNone => "None"
  | VStr s => s
  | VExc e => exc_message e
  | VDate _ => "datetime"
  | VFloat _ => "float"
  | VDump _ => "dict"
  | VTexts _ => "list"
  end.

(** ** Dicts: insertion-ordered maps from str keys *)
Module Dict.

Definition t : Type := list (string * value).

(** [d.get(k)] as an option. *)
Fixpoint get (d : t) (k : string) : option value :=
  match d with
  | [] => None
  | (k', v) :: r => if String.eqb k k' then Some v else get r k
  end.

(** [d.get(k, default)] *)
Definition get_default (d : t) (k : string) (default : value) : value :=
  match get d k with Some v => v | None => default end.

(** [d[k] = v]: replaces the value in place, or appends the new key. *)
Fixpoint set (d : t) (k : string) (v : value) : t :=
  match d with
  | [] => [(k, v)]
  | (k', v') :: r =>
      if String.eqb k k' then (k', v) :: r else (k', v') :: set r k v
  end.

(** The dict display with two unpackings: the keys of [a], then those of
    [b], the later value winning. *)
Definition merge (a b : t) : t :=
  fold_left (fun d kv => set d (fst kv) (snd kv)) b a.

End Dict.

Definition mk_exn (cls msg : string) : exn := mkExn cls msg [].

Definition KeyError (k : string) : exn := mk_exn "KeyError" ("'" ++ k ++ "'").
Definition ZeroDivisionError : exn := mk_exn "ZeroDivisionError" "division by zero".
Definition AttributeError (ty attr : string) : exn :=
  mk_exn "AttributeError" ("'" ++ ty ++ "' object has no attribute '" ++ attr ++ "'").
Definition TypeError (msg : string) : exn := mk_exn "TypeError" msg.

(** ** Effects: a trace of the calls that leave the process, and faults *)

(** A Ray task handle ([ObjectRef]): the position of its job in [futures]. *)
Definition handle : Type := nat.

Inductive event : Type :=
| Submit (h : handle) (text : string) (start end_ : datetime)  (* [query.remote] *)
| Wait (pending : list handle) (num_returns timeout : nat)     (* [ray.wait] *)
| Get (h : handle)                                             (* [ray.get] *)
| Markdown (s : string)                                        (* [tracer.markdown] *)
| Html (s : string)                                            (* [tracer.html] *)
| PrintLine (s : string)                                       (* [print] *)
| Sleep (secs : nat).                                          (* [asyncio.sleep] *)

(** A computation: the events it emitted, and a raised exception or a value. *)
Definition M (A : Type) : Type := list event * (exn + A).

Definition ret {A} (a : A) : M A := ([], inr a).
Definition raise {A} (e : exn) : M A := ([], inl e).
Definition emit (ev : event) : M unit := ([ev], inr tt).

Definition bind {A B} (c : M A) (k : A -> M B) : M B :=
  match c with
  | (evs, inl e) => (evs, inl e)
  | (evs, inr a) => let '(evs', r) := k a in (evs ++ evs', r)
  end.

Declare Scope py_scope.
Delimit Scope py_scope with py.
Notation "x <- c ;; k" := (bind c (fun x => k))
  (at level 61, c at next level, right associativity) : py_scope.
Notation "c ;; k" := (bind c (fun _ => k))
  (at level 61, right associativity) : py_scope.

(** [d[k]]: a missing key raises [KeyError]. *)
Definition getitem (d : Dict.t) (k : string) : M value :=
  match Dict.get d k with
  | Some v => ret v
  | None => raise (KeyError k)
  end.

(** [a / b] on ints. *)
Definition truediv (a b : nat) : M spec_float :=
  match b with
  | O => raise ZeroDivisionError
  | S _ => ret (PyFloat.div (PyFloat.of_nat a) (PyFloat.of_nat b))
  end.

(** ** The world outside the process *)

(** What [client.responses.create] hands back: the dump of the response
    and its [output_text]. *)
Record api_response : Type := mkResponse {
  model_dump : string;
  output_text : string
}.

(** The OpenAI service, the clock and the Ray cluster, as the program meets
    them.  [w_openai h model prompt] is the outcome of what [chat] does in
    the unit behind handle [h] (making the client, the request, reading the
    response): a response, or the [Exception] it raised; [w_runtime h] is
    the time the call took; [w_finish h] is the first iteration of the
    polling loop at which the unit's result is in the object store ([None]:
    it never is); [w_pick i] decides which of several ready handles
    [ray.wait] reports at iteration [i]. *)
Record world : Type := mkWorld {
  w_openai : handle -> string -> string -> exn + api_response;
  w_runtime : handle -> spec_float;
  w_finish : handle -> option nat;
  w_pick : nat -> nat;
  w_now : datetime
}.

(** The kodosumi tracer the batch reports to. *)
Record Tracer : Type := mkTracer { tracer_id : nat }.

Local Open Scope py_scope.

(** ** The remote unit: [chat] and [query] *)
Section Unit.

Variable w : world.

(** [chat(query, model)] as run by the unit behind handle [h]. *)
Definition chat (h : handle) (prompt : string) (model : string) : exn + Dict.t :=
  match w_openai w h model prompt with
  | inl e => inl e
  | inr response =>
      inr [ ("response", VDump (model_dump response));
            ("output", VStr (output_text response));
            ("model", VStr model);
            ("runtime", VFloat (w_runtime w h)) ]
  end.

(** The rendered prompt template of [query]. *)
Definition render (start end_ name : string) : string :=
  PyStr.newline
  ++ "    Identify news from " ++ start ++ " to " ++ end_
  ++ " about company **" ++ PyStr.dquote ++ name ++ PyStr.dquote ++ "**. "
  ++ PyStr.newline
  ++ "    Format the output as a bullet point list in the following format:"
  ++ PyStr.newline
  ++ PyStr.newline
  ++ "    * YYYY-mm-dd - [**Headline**](Link): Brief Summary of the news."
  ++ PyStr.newline
  ++ "                        "
  ++ PyStr.newline
  ++ "    Only output the bullet point list about news in the specified date range. "
  ++ PyStr.newline
  ++ "    Do not include any other text or additional information. If you cannot find "
  ++ PyStr.newline
  ++ "    any news for the given date range then output the text "
  ++ PyStr.dquote ++ "no news found" ++ PyStr.dquote ++ ".    "
  ++ PyStr.newline
  ++ "    ".

(** [query(text, start, end)]: the value the task behind [h] returns.  An
    exception of the call is caught and stored under ["error"]. *)
Definition query (h : handle) (text : string) (start end_ : datetime) : Dict.t :=
  match chat h (render (strftime_ymd start) (strftime_ymd end_) text) "gpt-4o-mini" with
  | inr resp =>
      Dict.merge resp
        [ ("query", VStr text); ("start", VDate start);
          ("end", VDate end_); ("error", VNone) ]
  | inl e =>
      [ ("query", VStr text); ("start", VDate start);
        ("end", VDate end_); ("error", VExc e) ]
  end.

End Unit.

(** ** The polling loop of [batch] *)

(** [[t.strip() for t in texts if t.strip()]] *)
Definition refine (texts : list string) : list string :=
  map PyStr.strip (filter (fun t => PyStr.truthy (PyStr.strip t)) texts).

(** The list without the first occurrence of [h]. *)
Fixpoint remove_handle (h : handle) (l : list handle) : list handle :=
  match l with
  | [] => []
  | x :: r => if Nat.eqb x h then r else x :: remove_handle h r
  end.

(** The loop's variables, with the handles already fetched as ghost state. *)
Record batch_state : Type := mkState {
  unready : list handle;
  completed_jobs : nat;
  results : list Dict.t;
  fetched : list handle
}.

(** How a run of [batch] stands: it returned, it raised, or the loop is
    still going round after the iterations it was given. *)
Inductive run : Type :=
| Returned (rs : list Dict.t)
| Raised (e : exn)
| Running (st : batch_state).

Section Batch.

Variable w : world.
Variable texts : list string.
Variables start end_ : datetime.
Variable tracer : option Tracer.

Definition refined : list string := refine texts.

(** [[query.remote(t, start, end) for t in refined]] *)
Definition futures : list handle := seq 0 (List.length refined).

Definition submissions : list event :=
  map (fun ht => Submit (fst ht) (snd ht) start end_) (combine futures refined).

(** Whether the result behind [h] is in the object store at iteration [i]. *)
Definition is_ready (i : nat) (h : handle) : bool :=
  match w_finish w h with
  | Some t => Nat.leb t i
  | None => false
  end.

(** [ray.wait(pending, num_returns=1, timeout=1)] at iteration [i]: one of
    the ready handles, if there is any when the timeout ends, and the others
    in their order. *)
Definition ray_wait (i : nat) (pending : list handle)
  : list handle * list handle :=
  match filter (is_ready i) pending with
  | [] => ([], pending)
  | c :: cs =>
      let h := nth (w_pick w i mod List.length (c :: cs)) (c :: cs) c in
      ([h], remove_handle h pending)
  end.

(** [ray.get(h)] for a ready handle: what [query] returned in the task. *)
Definition ray_get (h : handle) : M Dict.t :=
  emit (Get h) ;;
  match nth_error refined h with
  | Some t => ret (query w h t start end_)
  | None => raise (mk_exn "ValueError" "unknown object ref")
  end.

(** [tracer.markdown(s)] and [tracer.html(s)]: on a tracer the call is
    recorded; on [None] the attribute lookup raises. *)
Definition tracer_markdown (s : string) : M unit :=
  match tracer with
  | Some _ => emit (Markdown s)
  | None => raise (AttributeError "NoneType" "markdown")
  end.

Definition tracer_html (s : string) : M unit :=
  match tracer with
  | Some _ => emit (Html s)
  | None => raise (AttributeError "NoneType" "html")
  end.

(** One pass through the body of [while unready:]. *)
Definition iteration (i : nat) (st : batch_state) : M batch_state :=
  let '(ready, unready') := ray_wait i (unready st) in
  emit (Wait (unready st) 1 1) ;;
  st' <- match ready with
         | h :: _ =>
             result <- ray_get h ;;
             let results' := results st ++ [result] in
             let completed' := S (completed_jobs st) in
             q <- truediv completed' (List.length texts) ;;
             let p := PyFloat.mul q PyFloat.hundred in
             name <- getitem result "query" ;;
             tracer_markdown ("#### " ++ py_str name) ;;
             tracer_markdown (PyStr.of_nat completed' ++ "/"
                              ++ PyStr.of_nat (List.length texts) ++ " = "
                              ++ PyFloat.format_0f p ++ "%") ;;
             err <- getitem result "error" ;;
             (if truthy err
              then tracer_markdown ("**Error:** " ++ py_str err)
              else out <- getitem result "output" ;;
                   tracer_markdown (py_str out)) ;;
             tracer_html "<div class='large-divider'></div>" ;;
             emit (PrintLine ("Job completed (" ++ PyStr.of_nat completed' ++ "/"
                              ++ PyStr.of_nat (List.length texts) ++ ")")) ;;
             ret (mkState unready' completed' results' (fetched st ++ [h]))
         | [] =>
             ret (mkState unready' (completed_jobs st) (results st) (fetched st))
         end ;;
  emit (Sleep 1) ;;
  ret st'.

(** The [while unready:] loop from iteration [i] on, given [fuel] passes. *)
Fixpoint poll (fuel i : nat) (st : batch_state) : list event * run :=
  match unready st with
  | [] => ([], Returned (results st))
  | _ :: _ =>
      match fuel with
      | O => ([], Running st)
      | S fuel' =>
          match iteration i st with
          | (evs, inl e) => (evs, Raised e)
          | (evs, inr st') =>
              let '(evs', r) := poll fuel' (S i) st' in (evs ++ evs', r)
          end
      end
  end.

Definition init : batch_state := mkState futures 0 [] [].

(** [batch(texts, start, end, tracer)] *)
Definition batch (fuel : nat) : list event * run :=
  let '(evs, r) := poll fuel 0 init in (submissions ++ evs, r).

End Batch.

(** ** The entry point, [run_batch] and the service around them *)

(** [error.add(field=message)] on an [InputsError]. *)
Fixpoint add_error (errors : field_errors) (field message : string) : field_errors :=
  match errors with
  | [] => [(field, [message])]
  | (f, ms) :: r =>
      if String.eqb field f then (f, ms ++ [message]) :: r
      else (f, ms) :: add_error r field message
  end.

(** [error.has_errors()] *)
Definition has_errors (errors : field_errors) : bool :=
  match errors with [] => false | _ => true end.

Definition InputsError (errors : field_errors) : exn :=
  mkExn "InputsError" "" errors.

(** The fields an [InputsError] names. *)
Definition error_fields (e : exn) : list string := map fst (exc_errors e).

(** A kodosumi [Launch]: the entry point to run and its inputs. *)
Record launch : Type := mkLaunch {
  launch_target : string;
  launch_inputs : Dict.t
}.

Section Entry.

(** [datetime.datetime.strptime(s, "%Y-%m-%d")], of the Python library. *)
Variable strptime : string -> exn + datetime.

Variable w : world.

Definition parse_date (v : option value) : M datetime :=
  match v with
  | Some (VStr s) => ([], strptime s)
  | _ => raise (TypeError "strptime() argument 1 must be str")
  end.

(** [enter(request, inputs)] *)
Definition enter (inputs : Dict.t) : M launch :=
  query_text <- match Dict.get_default inputs "texts" (VStr "") with
                | VStr s => ret (PyStr.strip s)
                | _ => raise (AttributeError "object" "strip")
                end ;;
  start <- parse_date (Dict.get inputs "start") ;;
  end_ <- parse_date (Dict.get inputs "end") ;;
  let texts := refine (PyStr.split PyStr.LF query_text) in
  let error : field_errors := [] in
  let error :=
    match texts with
    | [] => add_error error "texts" "Please specify a query to search for news."
    | _ => error
    end in
  let error :=
    if datetime_gt start end_
    then add_error error "start" "Must be before or equal to end date."
    else error in
  if has_errors error then raise (InputsError error)
  else ret (mkLaunch "company_news.query:run_batch"
              [ ("texts", VTexts texts); ("start", VDate start);
                ("end", VDate end_) ]).

(** [run_batch(inputs, tracer)] *)
Definition run_batch (inputs : Dict.t) (tracer : Tracer) (fuel : nat)
  : list event * run :=
  let texts := Dict.get_default inputs "texts" (VTexts []) in
  let start := Dict.get_default inputs "start" (VDate (w_now w)) in
  let end_ := Dict.get_default inputs "end" (VDate (w_now w)) in
  match texts, start, end_ with
  | VTexts l, VDate s, VDate e => batch w l s e (Some tracer) fuel
  | _, _, _ => ([], Raised (TypeError "batch() arguments"))
  end.

(** The service: a form submission goes through [enter]; only the [Launch]
    it returns makes kodosumi run [run_batch] with the launch inputs. *)
Definition serve (inputs : Dict.t) (tracer : Tracer) (fuel : nat)
  : list event * run :=
  match enter inputs with
  | (evs, inl e) => (evs, Raised e)
  | (evs, inr l) =>
      let '(evs', r) := run_batch (launch_inputs l) tracer fuel in
      (evs ++ evs', r)
  end.

End Entry.

(** The [Submit] events of a trace: the jobs handed to the executor. *)
Definition is_submit (ev : event) : bool :=
  match ev with Submit _ _ _ _ => true | _ => false end.

Definition submitted (evs : list event) : list event := filter is_submit evs.

(** The events of a trace that reach the executor at all. *)
Definition is_executor_call (ev : event) : bool :=
  match ev with
  | Submit _ _ _ _ | Wait _ _ _ | Get _ => true
  | _ => false
  end.

Definition executor_calls (evs : list event) : list event :=
  filter is_executor_call evs.

(** ** Notions used to state the properties *)

Section Notions.

Variable w : world.
Variable texts : list string.
Variables start end_ : datetime.

(** The outcome of the external call that the unit behind [h] makes for
    the query [text]. *)
Definition unit_outcome (h : handle) (text : string) : exn + api_response :=
  w_openai w h "gpt-4o-mini" (render (strftime_ymd start) (strftime_ymd end_) text).

(** The dict that the unit behind [h] hands back. *)
Definition job_result (h : handle) : Dict.t :=
  query w h (nth h (refined texts) "") start end_.

(** The loop variables after one pass that did not raise. *)
Definition advance (i : nat) (st : batch_state) : batch_state :=
  match ray_wait w i (unready st) with
  | (h :: _, u) =>
      mkState u (S (completed_jobs st)) (results st ++ [job_result h])
              (fetched st ++ [h])
  | ([], u) => mkState u (completed_jobs st) (results st) (fetched st)
  end.

(** The loop variables at the head of the loop: [reachable tracer i st]
    when [st] is what the [while] test sees after [i] passes. *)
Inductive reachable (tracer : option Tracer) : nat -> batch_state -> Prop :=
| reach_init : reachable tracer 0 (init texts)
| reach_step i st evs st' :
    reachable tracer i st ->
    unready st <> [] ->
    iteration w texts start end_ tracer i st = (evs, inr st') ->
    reachable tracer (S i) st'.

(** The invariant of the loop variables.  [fetched] lists the handles whose
    result is in [results], in the same order. *)
Definition invariant (st : batch_state) : Prop :=
  completed_jobs st = List.length (results st)
  /\ results st = map job_result (fetched st)
  /\ Permutation (unready st ++ fetched st) (futures texts).

End Notions.

(** The unit behind [h] resolves: its result reaches the object store. *)
Definition resolves (w : world) (h : handle) : Prop :=
  exists t, w_finish w h = Some t.

(** The unit behind [h] succeeds: it resolves and its external call
    returned. *)
Definition succeeds (w : world) (start end_ : datetime) (h : handle)
  (text : string) : Prop :=
  resolves w h /\ exists r, unit_outcome w start end_ h text = inr r.

(** A line with nothing but whitespace. *)
Definition blank (line : string) : Prop := PyStr.strip line = "".

(** Every character of the string is whitespace. *)
Fixpoint all_space (s : string) : bool :=
  match s with
  | EmptyString => true
  | String c r => PyStr.isspace c && all_space r
  end.

(** The reading of the extra delay as belonging to the idle branch only: a
    pass that sleeps is a pass in which [ray.wait] reported no handle. *)
Definition delay_only_when_idle : Prop :=
  forall w texts start end_ tracer i st evs st',
    iteration w texts start end_ tracer i st = (evs, inr st') ->
    In (Sleep 1) evs ->
    fst (ray_wait w i (unready st)) = [].

(** The strings handed to [tracer.markdown], in order. *)
Fixpoint markdowns (evs : list event) : list string :=
  match evs with
  | [] => []
  | Markdown s :: r => s :: markdowns r
  | _ :: r => markdowns r
  end.

(** ** A scenario: two companies between blank lines *)
Module Scenario.

Definition jan1 : datetime := mkDate 2024 1 1 0.
Definition jan31 : datetime := mkDate 2024 1 31 0.

Definition lines : list string := ["Acme Corp"; ""; "  "; "Globex"].

Definition boom : exn := mk_exn "APIError" "boom".

(** The unit for the second job fails, the first one answers; the units
    finish in the order of submission. *)
Definition cluster : world :=
  mkWorld
    (fun h _ _ => if Nat.eqb h 1 then inl boom
                  else inr (mkResponse "{}" "* 2024-01-05 - news"))
    (fun _ => S754_zero false)
    (fun h => Some h)
    (fun _ => 0)
    (mkDate 2024 6 1 0).

(** A cluster on which every unit answers. *)
Definition calm : world :=
  mkWorld
    (fun _ _ _ => inr (mkResponse "{}" "no news found"))
    (fun _ => S754_zero false)
    (fun h => Some h)
    (fun _ => 0)
    (mkDate 2024 6 1 0).

(** The same cluster with a first unit that never finishes. *)
Definition stalled : world :=
  mkWorld (w_openai cluster) (w_runtime cluster)
    (fun h => if Nat.eqb h 0 then None else Some h)
    (w_pick cluster) (w_now cluster).

Definition sink : Tracer := mkTracer 0.

(** The loop variables after the first pass over [lines] on [cluster]. *)
Definition after_first_pass : batch_state :=
  advance cluster lines jan1 jan31 0 (init lines).

(** A strict reading of dates written as [YYYY-MM-DD] in ASCII digits,
    standing for [strptime] where a concrete one is needed. *)
Definition digit (c : ascii) : option Z :=
  let n := nat_of_ascii c in
  if (Nat.leb 48 n && Nat.leb n 57)%bool then Some (Z.of_nat (n - 48)) else None.

Definition strptime (s : string) : exn + datetime :=
  match s with
  | String y1 (String y2 (String y3 (String y4 (String "-"
      (String m1 (String m2 (String "-" (String d1 (String d2 EmptyString))))))))) =>
      match digit y1, digit y2, digit y3, digit y4,
            digit m1, digit m2, digit d1, digit d2 with
      | Some a, Some b, Some c, Some d, Some e, Some f, Some g, Some k =>
          inr (mkDate (1000 * a + 100 * b + 10 * c + d) (10 * e + f) (10 * g + k) 0)
      | _, _, _, _, _, _, _, _ =>
          inl (mk_exn "ValueError" "time data does not match format")
      end
  | _ => inl (mk_exn "ValueError" "time data does not match format")
  end.

End Scenario.

(** ** Notions for the further properties *)

(** The first line of [lines] with [pre] put in front of it. *)
Definition with_prefix (pre : string) (lines : list string) : list string :=
  match lines with
  | [] => [pre]
  | p :: ps => (pre ++ p)%string :: ps
  end.

(** A job text as [refine] leaves it: not empty, nothing to trim. *)
Definition trimmed (t : string) : Prop := PyStr.strip t = t /\ t <> "".

(** The handles passed to [ray.get], in order. *)
Fixpoint gets (evs : list event) : list handle :=
  match evs with
  | [] => []
  | Get h :: r => h :: gets r
  | _ :: r => gets r
  end.

(** The lines printed, in order. *)
Fixpoint print_lines (evs : list event) : list string :=
  match evs with
  | [] => []
  | PrintLine s :: r => s :: print_lines r
  | _ :: r => print_lines r
  end.

(** The number of calls of [asyncio.sleep] and of [ray.wait]. *)
Definition is_sleep (ev : event) : bool :=
  match ev with Sleep _ => true | _ => false end.

Definition is_wait (ev : event) : bool :=
  match ev with Wait _ _ _ => true | _ => false end.

Definition sleeps (evs : list event) : nat := List.length (filter is_sleep evs).
Definition waits (evs : list event) : nat := List.length (filter is_wait evs).

(** The line printed for the [k]-th completed job of [total] lines. *)
Definition job_line (k total : nat) : string :=
  "Job completed (" ++ PyStr.of_nat k ++ "/" ++ PyStr.of_nat total ++ ")".

(** The completion line reported for the [k]-th completed job. *)
Definition fraction_line (k total : nat) : string :=
  PyStr.of_nat k ++ "/" ++ PyStr.of_nat total ++ " = "
  ++ PyFloat.format_0f
       (PyFloat.mul (PyFloat.div (PyFloat.of_nat k) (PyFloat.of_nat total))
                    PyFloat.hundred)
  ++ "%".

Section Reports.

Variable w : world.
Variable texts : list string.
Variables start end_ : datetime.

(** What is reported for the job behind [h]: its output, or its error
    after the marker. *)
Definition report_body (h : handle) : string :=
  match unit_outcome w start end_ h (nth h (refined texts) "") with
  | inl e => "**Error:** " ++ exc_message e
  | inr r => output_text r
  end.

(** The events of one pass with a tracer, spelled out. *)
Definition pass_events (i : nat) (st : batch_state) : list event :=
  match ray_wait w i (unready st) with
  | (h :: _, _) =>
      [ Wait (unready st) 1 1; Get h;
        Markdown ("#### " ++ nth h (refined texts) "");
        Markdown (fraction_line (S (completed_jobs st)) (List.length texts));
        Markdown (report_body h);
        Html "<div class='large-divider'></div>";
        PrintLine (job_line (S (completed_jobs st)) (List.length texts));
        Sleep 1 ]
  | ([], _) => [ Wait (unready st) 1 1; Sleep 1 ]
  end.

End Reports.

(** The result list of a run that returned. *)
Definition returned (r : run) : list Dict.t :=
  match r with Returned rs => rs | _ => [] end.

(** A computation that submits nothing. *)
Definition no_submit {A : Type} (c : M A) : Prop := submitted (fst c) = [].


(** The scenario run to its end: two passes. *)
Definition scenario_run : list event * run :=
  batch Scenario.cluster Scenario.lines Scenario.jan1 Scenario.jan31
        (Some Scenario.sink) 2.

(** The query texts of the [Submit] events, in order. *)
Fixpoint submit_texts (evs : list event) : list string :=
  match evs with
  | [] => []
  | Submit _ t _ _ :: r => t :: submit_texts r
  | _ :: r => submit_texts r
  end.

(** A form as it is submitted: two companies between blank lines. *)
Definition scenario_text : string :=
  "Acme Corp" ++ PyStr.newline ++ PyStr.newline ++ "  " ++ PyStr.newline
  ++ " Globex ".

Definition scenario_form : Dict.t :=
  [ ("texts", VStr scenario_text); ("start", VStr "2024-01-01");
    ("end", VStr "2024-01-31") ].

(** The float [k / total * 100.] of the completion line. *)
Definition percent_float (k total : nat) : spec_float :=
  PyFloat.mul (PyFloat.div (PyFloat.of_nat k) (PyFloat.of_nat total))
              PyFloat.hundred.

(** The integer that [.0f] prints for a float, where it prints one. *)
Definition whole (x : spec_float) : Z :=
  match x with
  | S754_finite false m e => PyFloat.round_half_even m e
  | S754_finite true m e => - PyFloat.round_half_even m e
  | _ => 0
  end.

(** A float that [.0f] prints as a plain non-negative integer. *)
Definition plain (x : spec_float) : bool :=
  match x with
  | S754_zero false | S754_finite false _ _ => true
  | _ => false
  end.

(** The whole percent shown for [k] completed jobs of [total] lines. *)
Definition percent (k total : nat) : Z := whole (percent_float k total).

(** For [k] of [total]: the percent is shown as a plain integer, is
    within one half of [100 k / total], is 100 when [k = total], and is
    not above the percent of [k + 1]. *)
Definition percent_checked (total k : nat) : bool :=
  let x := percent_float k total in
  let p := whole x in
  plain x
  && (Z.abs (2 * p * Z.of_nat total - 200 * Z.of_nat k) <=? Z.of_nat total)%Z
  && (if Nat.eqb k total then (p =? 100)%Z else true)
  && (if Nat.ltb k total then (p <=? percent (S k) total)%Z else true).

Definition percents_checked (bound : nat) : bool :=
  forallb (fun total => forallb (percent_checked total) (seq 0 (S total)))
          (seq 1 bound).

(** * Properties *)

(** ** The effect monad *)

Lemma bind_inr {A B} (c : M A) (k : A -> M B) evs b :
  bind c k = (evs, inr b) ->
  exists e1 a e2, c = (e1, inr a) /\ k a = (e2, inr b) /\ evs = e1 ++ e2.
Proof.
  unfold bind. destruct c as [e1 [x | a]]; [discriminate |].
  destruct (k a) as [e2 r] eqn:Hk. intros H. inversion H; subst.
  exists e1, a, e2. auto.
Qed.

(** ** The unit of work *)

Section UnitFacts.

Variable w : world.
Variables (h : handle) (text : string) (start end_ : datetime).

Lemma query_ok r :
  unit_outcome w start end_ h text = inr r ->
  Dict.get (query w h text start end_) "error" = Some VNone
  /\ Dict.get (query w h text start end_) "output" = Some (VStr (output_text r))
  /\ Dict.get (query w h text start end_) "query" = Some (VStr text).
Proof.
  unfold unit_outcome, query, chat. intros ->. repeat split; reflexivity.
Qed.

Lemma query_failed e :
  unit_outcome w start end_ h text = inl e ->
  Dict.get (query w h text start end_) "error" = Some (VExc e)
  /\ Dict.get (query w h text start end_) "output" = None
  /\ Dict.get (query w h text start end_) "query" = Some (VStr text).
Proof.
  unfold unit_outcome, query, chat. intros ->. repeat split; reflexivity.
Qed.

End UnitFacts.

(** The value of a unit only depends on what the world does for its own
    handle. *)
Lemma query_local (w1 w2 : world) h text start end_ :
  (forall model prompt, w_openai w1 h model prompt = w_openai w2 h model prompt) ->
  w_runtime w1 h = w_runtime w2 h ->
  query w1 h text start end_ = query w2 h text start end_.
Proof.
  intros Ho Hr. unfold query, chat. now rewrite Ho, Hr.
Qed.

(** ** Lists of handles *)

Lemma remove_handle_perm h l :
  In h l -> Permutation l (h :: remove_handle h l).
Proof.
  induction l as [| x r IH]; simpl; [tauto |].
  intros Hin. destruct (Nat.eqb_spec x h) as [-> | Hne]; [reflexivity |].
  destruct Hin as [Heq | Hin]; [congruence |].
  rewrite (IH Hin) at 1. apply perm_swap.
Qed.

Lemma remove_handle_length h l :
  In h l -> S (List.length (remove_handle h l)) = List.length l.
Proof.
  intros Hin. apply remove_handle_perm, Permutation_length in Hin.
  simpl in Hin. lia.
Qed.

Lemma remove_handle_other h x l :
  x <> h -> In x l -> In x (remove_handle h l).
Proof.
  intros Hne. induction l as [| y r IH]; simpl; [tauto |].
  destruct (Nat.eqb_spec y h) as [-> | Hyh]; simpl; intuition congruence.
Qed.

Lemma refine_length texts : List.length (refine texts) <= List.length texts.
Proof.
  unfold refine. rewrite length_map. apply filter_length_le.
Qed.

Lemma refine_nonblank texts :
  Forall (fun t => PyStr.strip t <> "") texts ->
  List.length (refine texts) = List.length texts.
Proof.
  unfold refine. rewrite length_map. induction 1 as [| t r Ht _ IH]; simpl; [reflexivity |].
  destruct (PyStr.strip t) eqn:E; [congruence |]. simpl. now rewrite IH.
Qed.

(** ** One iteration of the loop *)

Section LoopFacts.

Variable w : world.
Variable texts : list string.
Variables start end_ : datetime.

Lemma ray_wait_cases i pending :
  (ray_wait w i pending = ([], pending)
   /\ forall h, In h pending -> is_ready w i h = false)
  \/ (exists h, ray_wait w i pending = ([h], remove_handle h pending)
      /\ In h pending /\ is_ready w i h = true).
Proof.
  unfold ray_wait. destruct (filter (is_ready w i) pending) as [| c cs] eqn:Hf.
  - left. split; [reflexivity |]. intros h Hin.
    destruct (is_ready w i h) eqn:Hr; [| reflexivity].
    assert (Hin' : In h (filter (is_ready w i) pending)) by (apply filter_In; auto).
    rewrite Hf in Hin'. destruct Hin'.
  - right. set (k := w_pick w i mod List.length (c :: cs)).
    exists (nth k (c :: cs) c). split; [reflexivity |].
    assert (Hk : k < List.length (c :: cs)).
    { apply Nat.mod_upper_bound. simpl. lia. }
    pose proof (nth_In (c :: cs) c Hk) as Hin. rewrite <- Hf in Hin at 2.
    apply filter_In in Hin. exact Hin.
Qed.

Lemma ray_get_job h :
  h < List.length (refined texts) ->
  ray_get w texts start end_ h = ([Get h], inr (job_result w texts start end_ h)).
Proof.
  intros Hlt. unfold ray_get, job_result.
  destruct (nth_error (refined texts) h) as [t |] eqn:Hn.
  - apply (nth_error_nth _ _ "") in Hn. rewrite Hn. reflexivity.
  - apply nth_error_None in Hn. lia.
Qed.

Ltac run_monad :=
  cbn [bind emit ret raise truediv tracer_markdown tracer_html truthy fst snd].

(** With a tracer, a pass over known handles does not raise. *)
Lemma iteration_reports tr i st :
  (forall h, In h (unready st) -> h < List.length (refined texts)) ->
  exists evs,
    iteration w texts start end_ (Some tr) i st = (evs, inr (advance w texts start end_ i st)).
Proof.
  intros Hb. unfold iteration, advance.
  destruct (ray_wait_cases i (unready st)) as [[Hw _] | [h [Hw [Hin _]]]];
    rewrite Hw.
  - eexists. reflexivity.
  - assert (Hlt := Hb h Hin).
    assert (Ht : List.length texts <> 0).
    { pose proof (refine_length texts). unfold refined in Hlt. lia. }
    destruct (List.length texts) as [| n] eqn:Hlen; [congruence |].
    rewrite (ray_get_job h Hlt). unfold getitem.
    destruct (unit_outcome w start end_ h (nth h (refined texts) ""))
      as [e | r] eqn:Ho.
    + destruct (query_failed _ _ _ _ _ e Ho) as [He [_ Hq]].
      fold (job_result w texts start end_ h) in He, Hq. run_monad. rewrite Hq, He.
      run_monad. eexists. reflexivity.
    + destruct (query_ok _ _ _ _ _ r Ho) as [He [Hout Hq]].
      fold (job_result w texts start end_ h) in He, Hout, Hq. run_monad. rewrite Hq, He.
      run_monad. rewrite Hout. run_monad. eexists. reflexivity.
Qed.

(** Whatever the tracer, a pass that does not raise leaves [advance]. *)
Lemma iteration_advance tracer i st evs st' :
  iteration w texts start end_ tracer i st = (evs, inr st') ->
  st' = advance w texts start end_ i st.
Proof.
  unfold iteration, advance.
  destruct (ray_wait w i (unready st)) as [[| h ready] u].
  - run_monad. intros H. now inversion H.
  - intros H.
    apply bind_inr in H as (e1 & [] & e2 & _ & H & _).
    apply bind_inr in H as (e3 & st1 & e4 & H & Hs & _).
    run_monad. cbn in Hs. inversion Hs; subst st'; clear Hs.
    apply bind_inr in H as (e5 & result & e6 & Hg & H & _).
    assert (Hres : result = job_result w texts start end_ h).
    { unfold ray_get in Hg. apply bind_inr in Hg as (? & [] & ? & _ & Hg & _).
      unfold job_result.
      destruct (nth_error (refined texts) h) as [t |] eqn:Hn; [| discriminate].
      apply (nth_error_nth _ _ "") in Hn. rewrite Hn.
      cbn in Hg. now inversion Hg. }
    subst result.
    repeat (apply bind_inr in H as (? & ? & ? & _ & H & _)).
    cbn in H. now inversion H.
Qed.

(** A pass in which [ray.wait] reports nothing: the wait, then the sleep,
    and the loop variables as they were. *)
Lemma iteration_idle tracer i st :
  fst (ray_wait w i (unready st)) = [] ->
  iteration w texts start end_ tracer i st
  = ([Wait (unready st) 1 1; Sleep 1], inr st).
Proof.
  unfold iteration.
  destruct (ray_wait_cases i (unready st)) as [[Hw _] | [h [Hw _]]];
    rewrite Hw; simpl; [| discriminate].
  intros _. now destruct st.
Qed.

(** Without a tracer, a pass in which [ray.wait] reports a handle raises. *)
Lemma iteration_no_tracer i st h ready u :
  ray_wait w i (unready st) = (h :: ready, u) ->
  h < List.length (refined texts) ->
  iteration w texts start end_ None i st
  = ([Wait (unready st) 1 1; Get h],
     inl (AttributeError "NoneType" "markdown")).
Proof.
  intros Hw Hlt. unfold iteration. rewrite Hw.
  assert (Ht : List.length texts <> 0).
  { pose proof (refine_length texts). unfold refined in Hlt. lia. }
  destruct (List.length texts) as [| n] eqn:Hlen; [congruence |].
  rewrite (ray_get_job h Hlt). unfold getitem.
  destruct (unit_outcome w start end_ h (nth h (refined texts) ""))
    as [e | r] eqn:Ho.
  - destruct (query_failed _ _ _ _ _ e Ho) as [_ [_ Hq]].
    fold (job_result w texts start end_ h) in Hq. run_monad. rewrite Hq. reflexivity.
  - destruct (query_ok _ _ _ _ _ r Ho) as [_ [_ Hq]].
    fold (job_result w texts start end_ h) in Hq. run_monad. rewrite Hq. reflexivity.
Qed.

Lemma advance_unready i st h :
  In h (unready (advance w texts start end_ i st)) -> In h (unready st).
Proof.
  unfold advance.
  destruct (ray_wait_cases i (unready st)) as [[Hw _] | [h' [Hw [Hin _]]]];
    rewrite Hw; simpl; [tauto |].
  intros Hr. apply (Permutation_in h (Permutation_sym (remove_handle_perm _ _ Hin))).
  now right.
Qed.

(** ** The loop as a whole *)

(** Draining: once every pending unit is finished from iteration [T] on,
    [T - i] idle passes and one pass per pending handle are enough. *)
Lemma poll_drains tr T fuel : forall i st,
  (forall h, In h (unready st) ->
     h < List.length (refined texts)
     /\ exists t, w_finish w h = Some t /\ t <= T) ->
  (T - i) + List.length (unready st) <= fuel ->
  exists evs order,
    poll w texts start end_ (Some tr) fuel i st
    = (evs, Returned (results st ++ map (job_result w texts start end_) order))
    /\ Permutation order (unready st).
Proof.
  induction fuel as [| fuel IH]; intros i st Hfin Hfuel.
  - destruct (unready st) as [| h u] eqn:Hu; [| simpl in Hfuel; lia].
    exists [], []. simpl. rewrite Hu, app_nil_r. auto.
  - destruct (unready st) as [| h0 u0] eqn:Hu.
    { exists [], []. simpl. rewrite Hu, app_nil_r. auto. }
    rewrite <- Hu in Hfin, Hfuel.
    destruct (iteration_reports tr i st) as [evs Hit].
    { intros h Hin. exact (proj1 (Hfin h Hin)). }
    assert (Hnext : exists order',
      Permutation (order' ++ unready (advance w texts start end_ i st)) (unready st)
      /\ results (advance w texts start end_ i st) = results st ++ map (job_result w texts start end_) order'
      /\ (T - S i) + List.length (unready (advance w texts start end_ i st)) <= fuel).
    { unfold advance.
      destruct (ray_wait_cases i (unready st)) as [[Hw Hno] | [h [Hw [Hin _]]]];
        rewrite Hw; simpl.
      - exists []. simpl. rewrite app_nil_r. repeat split; auto.
        assert (Hh : In h0 (unready st)) by (rewrite Hu; now left).
        destruct (Hfin h0 Hh) as [_ [t [Ht HtT]]].
        specialize (Hno h0 Hh). unfold is_ready in Hno. rewrite Ht in Hno.
        apply Nat.leb_gt in Hno. rewrite Hu in Hfuel |- *.
        simpl in Hfuel |- *. lia.
      - exists [h]. repeat split; auto.
        + symmetry. now apply remove_handle_perm.
        + pose proof (remove_handle_length h _ Hin). lia. }
    destruct Hnext as (order' & Hperm & Hres & Hmeasure).
    destruct (IH (S i) (advance w texts start end_ i st)) as (evs' & order & Hpoll & Hord).
    { intros h Hin. apply Hfin. now apply advance_unready in Hin. }
    { exact Hmeasure. }
    exists (evs ++ evs'), (order' ++ order). split.
    + simpl. rewrite Hu, Hit, Hpoll, Hres, map_app, app_assoc. reflexivity.
    + rewrite <- Hu, <- Hperm. now apply Permutation_app_head.
Qed.

(** With a tracer the loop never raises: it has returned what it fetched,
    or it still has handles pending. *)
Lemma poll_no_fault tr fuel : forall i st,
  (forall h, In h (unready st) -> h < List.length (refined texts)) ->
  match snd (poll w texts start end_ (Some tr) fuel i st) with
  | Returned rs =>
      exists order, rs = results st ++ map (job_result w texts start end_) order
                    /\ Permutation order (unready st)
  | Raised _ => False
  | Running st' => unready st' <> []
  end.
Proof.
  induction fuel as [| fuel IH]; intros i st Hb.
  - simpl. destruct (unready st) eqn:Hu; simpl.
    + exists []. simpl. now rewrite app_nil_r.
    + congruence.
  - simpl. destruct (unready st) as [| h0 u0] eqn:Hu; simpl.
    { exists []. simpl. now rewrite app_nil_r. }
    rewrite <- Hu in Hb |- *.
    destruct (iteration_reports tr i st Hb) as [evs ->].
    specialize (IH (S i) (advance w texts start end_ i st)).
    destruct (poll w texts start end_ (Some tr) fuel (S i) (advance w texts start end_ i st))
      as [evs' r].
    simpl in *.
    assert (Hb' : forall h, In h (unready (advance w texts start end_ i st)) ->
                            h < List.length (refined texts)).
    { intros h Hin. apply Hb. now apply advance_unready in Hin. }
    specialize (IH Hb'). destruct r as [rs | e | st']; auto.
    destruct IH as (order & -> & Hperm).
    unfold advance in *.
    destruct (ray_wait_cases i (unready st)) as [[Hw _] | [h [Hw [Hin _]]]];
      rewrite Hw in *; simpl in *.
    + exists order. auto.
    + exists (h :: order). split.
      * now rewrite <- app_assoc.
      * rewrite (remove_handle_perm h (unready st) Hin). now constructor.
Qed.

(** A handle whose unit never finishes stays pending. *)
Lemma advance_keeps_stuck i st h0 :
  w_finish w h0 = None -> In h0 (unready st) -> In h0 (unready (advance w texts start end_ i st)).
Proof.
  intros Hnever Hin. unfold advance.
  destruct (ray_wait_cases i (unready st)) as [[Hw _] | [h [Hw [_ Hr]]]];
    rewrite Hw; simpl; [assumption |].
  apply remove_handle_other; [| assumption].
  intros ->. unfold is_ready in Hr. now rewrite Hnever in Hr.
Qed.

Lemma poll_stuck_never_returns tracer h0 fuel : forall i st evs rs,
  w_finish w h0 = None -> In h0 (unready st) ->
  poll w texts start end_ tracer fuel i st <> (evs, Returned rs).
Proof.
  induction fuel as [| fuel IH]; intros i st evs rs Hnever Hin; simpl;
    destruct (unready st) as [| h u] eqn:Hu; try (now destruct Hin);
    try discriminate.
  destruct (iteration w texts start end_ tracer i st) as [ev1 [e | st']] eqn:Hit;
    [discriminate |].
  apply iteration_advance in Hit. subst st'.
  destruct (poll w texts start end_ tracer fuel (S i) (advance w texts start end_ i st))
    as [ev2 r] eqn:Hp.
  intros H. inversion H; subst.
  apply (IH (S i) (advance w texts start end_ i st) ev2 rs Hnever); [| exact Hp].
  apply advance_keeps_stuck; [assumption |]. rewrite Hu. exact Hin.
Qed.

Lemma poll_stuck_running tr h0 fuel : forall i st,
  w_finish w h0 = None -> In h0 (unready st) ->
  (forall h, In h (unready st) -> h < List.length (refined texts)) ->
  exists evs st',
    poll w texts start end_ (Some tr) fuel i st = (evs, Running st')
    /\ In h0 (unready st').
Proof.
  induction fuel as [| fuel IH]; intros i st Hnever Hin Hb; simpl;
    destruct (unready st) as [| h u] eqn:Hu; try (now destruct Hin).
  - exists [], st. rewrite Hu. auto.
  - rewrite <- Hu in Hin, Hb.
    destruct (iteration_reports tr i st Hb) as [evs ->].
    destruct (IH (S i) (advance w texts start end_ i st)) as (evs' & st' & -> & Hin').
    + assumption.
    + now apply advance_keeps_stuck.
    + intros x Hx. apply Hb. now apply advance_unready in Hx.
    + exists (evs ++ evs'), st'. auto.
Qed.

(** ** The invariant of the loop variables *)

Lemma init_invariant : invariant w texts start end_ (init texts).
Proof.
  unfold invariant, init. simpl. rewrite app_nil_r. auto.
Qed.

Lemma advance_invariant i st :
  invariant w texts start end_ st ->
  invariant w texts start end_ (advance w texts start end_ i st).
Proof.
  intros (Hc & Hr & Hp). unfold invariant, advance.
  destruct (ray_wait_cases i (unready st)) as [[Hw _] | [h [Hw [Hin _]]]];
    rewrite Hw; simpl; [auto |].
  repeat split.
  - rewrite length_app. simpl. lia.
  - now rewrite map_app, Hr.
  - apply Permutation_trans with (2 := Hp). rewrite app_assoc.
    apply Permutation_trans with (1 := Permutation_app_comm _ [h]).
    change ([h] ++ remove_handle h (unready st) ++ fetched st)
      with ((h :: remove_handle h (unready st)) ++ fetched st).
    apply Permutation_app_tail, Permutation_sym, remove_handle_perm, Hin.
Qed.

Lemma reachable_invariant tracer i st :
  reachable w texts start end_ tracer i st ->
  invariant w texts start end_ st.
Proof.
  induction 1 as [| i st evs st' _ IH _ Hit].
  - apply init_invariant.
  - apply iteration_advance in Hit. subst st'. now apply advance_invariant.
Qed.

(** The states that [poll] goes through are the reachable ones. *)
Lemma poll_reachable tracer fuel : forall i st,
  reachable w texts start end_ tracer i st ->
  match snd (poll w texts start end_ tracer fuel i st) with
  | Returned rs =>
      exists j st', reachable w texts start end_ tracer j st'
                    /\ unready st' = [] /\ results st' = rs
  | Running st' =>
      reachable w texts start end_ tracer (fuel + i) st' /\ unready st' <> []
  | Raised _ => True
  end.
Proof.
  induction fuel as [| fuel IH]; intros i st Hreach; simpl;
    destruct (unready st) as [| h u] eqn:Hu; simpl.
  - exists i, st. auto.
  - split; [assumption | congruence].
  - exists i, st. auto.
  - destruct (iteration w texts start end_ tracer i st) as [evs [e | st']] eqn:Hit;
      simpl; [exact I |].
    assert (Hnext : reachable w texts start end_ tracer (S i) st').
    { apply reach_step with (st := st) (evs := evs);
        [assumption | congruence | assumption]. }
    specialize (IH (S i) st' Hnext).
    destruct (poll w texts start end_ tracer fuel (S i) st') as [evs' r].
    simpl in *. rewrite Nat.add_succ_r in IH. exact IH.
Qed.

End LoopFacts.

(** ** Batches whose units all resolve *)

Lemma in_futures texts h :
  In h (futures texts) <-> h < List.length (refined texts).
Proof. unfold futures. rewrite in_seq. lia. Qed.

(** Finitely many units that all finish have all finished by some
    iteration. *)
Lemma finish_bound (w : world) n :
  (forall h, h < n -> resolves w h) ->
  exists T, forall h, h < n -> exists t, w_finish w h = Some t /\ t <= T.
Proof.
  induction n as [| n IH]; intros Hres.
  - exists 0. intros h Hlt. lia.
  - destruct IH as [T HT]; [intros h Hlt; apply Hres; lia |].
    destruct (Hres n) as [tn Hn]; [lia |].
    exists (Nat.max T tn). intros h Hlt.
    destruct (Nat.eq_dec h n) as [-> | Hne].
    + exists tn. split; [assumption | lia].
    + destruct (HT h) as [t [Ht Hle]]; [lia |]. exists t. split; [assumption | lia].
Qed.

(** When every unit resolves, a run with enough passes returns one result
    per job: the jobs' own dicts in the order of completion. *)
Lemma batch_returns w texts start end_ tr :
  (forall h, h < List.length (refined texts) -> resolves w h) ->
  exists fuel0, forall fuel, fuel0 <= fuel ->
    exists evs order,
      batch w texts start end_ (Some tr) fuel
      = (evs, Returned (map (job_result w texts start end_) order))
      /\ Permutation order (futures texts).
Proof.
  intros Hres. destruct (finish_bound w _ Hres) as [T HT].
  exists (T + List.length (futures texts)). intros fuel Hfuel.
  destruct (poll_drains w texts start end_ tr T fuel 0 (init texts))
    as (evs & order & Hpoll & Hperm).
  - simpl. intros h Hin. apply in_futures in Hin. split; [assumption |].
    now apply HT.
  - simpl. lia.
  - exists (submissions texts start end_ ++ evs), order. split; [| exact Hperm].
    unfold batch. rewrite Hpoll. reflexivity.
Qed.

(** Without a tracer the loop raises as soon as [ray.wait] reports a
    handle: when the pending units all finish, it never gets to return. *)
Lemma poll_without_tracer w texts start end_ T fuel : forall i st,
  unready st <> [] ->
  (forall h, In h (unready st) ->
     h < List.length (refined texts)
     /\ exists t, w_finish w h = Some t /\ t <= T) ->
  T - i < fuel ->
  exists evs,
    poll w texts start end_ None fuel i st
    = (evs, Raised (AttributeError "NoneType" "markdown")).
Proof.
  induction fuel as [| fuel IH]; intros i st Hne Hfin Hfuel; [lia |].
  simpl. destruct (unready st) as [| h0 u0] eqn:Hu; [congruence |].
  rewrite <- Hu in Hfin.
  destruct (ray_wait_cases w i (unready st)) as [[Hw Hno] | [h [Hw [Hin _]]]].
  - rewrite (iteration_idle w texts start end_ None i st) by now rewrite Hw.
    assert (Hh : In h0 (unready st)) by (rewrite Hu; now left).
    destruct (Hfin h0 Hh) as [_ [t [Ht HtT]]].
    specialize (Hno h0 Hh). unfold is_ready in Hno. rewrite Ht in Hno.
    apply Nat.leb_gt in Hno.
    destruct (IH (S i) st) as [evs Hp]; [congruence | assumption | lia |].
    rewrite Hp. eexists. reflexivity.
  - rewrite (iteration_no_tracer w texts start end_ i st h [] _ Hw
               (proj1 (Hfin h Hin))).
    eexists. reflexivity.
Qed.

Lemma batch_without_tracer w texts start end_ :
  refined texts <> [] ->
  (forall h, h < List.length (refined texts) -> resolves w h) ->
  exists fuel0, forall fuel, fuel0 <= fuel ->
    exists evs,
      batch w texts start end_ None fuel
      = (evs, Raised (AttributeError "NoneType" "markdown")).
Proof.
  intros Hne Hres. destruct (finish_bound w _ Hres) as [T HT].
  exists (S T). intros fuel Hfuel.
  destruct (poll_without_tracer w texts start end_ T fuel 0 (init texts))
    as [evs Hp].
  - simpl. unfold futures. destruct (refined texts); [congruence | discriminate].
  - simpl. intros h Hin. apply in_futures in Hin. split; [assumption |].
    now apply HT.
  - lia.
  - exists (submissions texts start end_ ++ evs). unfold batch. now rewrite Hp.
Qed.

(** C1: for N non-blank input lines whose units all succeed, [batch] with
    a tracer returns, after enough passes of the loop, a list of exactly N
    results, each with ["error"] set to [None]. *)
Theorem batch_all_succeed w texts start end_ tr :
  Forall (fun t => ~ blank t) texts ->
  (forall h, h < List.length (refined texts) ->
     succeeds w start end_ h (nth h (refined texts) "")) ->
  exists fuel0, forall fuel, fuel0 <= fuel ->
    exists evs rs,
      batch w texts start end_ (Some tr) fuel = (evs, Returned rs)
      /\ List.length rs = List.length texts
      /\ Forall (fun r => Dict.get r "error" = Some VNone) rs.
Proof.
  intros Hlines Hok.
  destruct (batch_returns w texts start end_ tr) as [fuel0 Hret].
  { intros h Hlt. exact (proj1 (Hok h Hlt)). }
  exists fuel0. intros fuel Hfuel.
  destruct (Hret fuel Hfuel) as (evs & order & Hb & Hperm).
  exists evs, (map (job_result w texts start end_) order).
  split; [exact Hb |]. split.
  - rewrite length_map, (Permutation_length Hperm).
    unfold futures. rewrite length_seq. now apply refine_nonblank.
  - apply Forall_map, Forall_forall. intros h Hin.
    apply (Permutation_in _ Hperm), in_futures in Hin.
    destruct (Hok h Hin) as [_ [r Hr]].
    exact (proj1 (query_ok _ _ _ _ _ r Hr)).
Qed.

(** C2: when every unit of a batch of N jobs resolves, failing or not,
    [batch] returns N results, one per job; a failed unit's entry has
    ["error"] set and no ["output"], a successful unit's entry has
    ["output"] set and ["error"] [None]; and each entry is determined by
    what the world does for its own handle alone. *)
Theorem batch_isolates_failures w texts start end_ tr :
  (forall h, h < List.length (refined texts) -> resolves w h) ->
  exists fuel0, forall fuel, fuel0 <= fuel ->
    exists evs rs order,
      batch w texts start end_ (Some tr) fuel = (evs, Returned rs)
      /\ List.length rs = List.length (refined texts)
      /\ Permutation order (futures texts)
      /\ rs = map (job_result w texts start end_) order
      /\ (forall h, In h order ->
            match unit_outcome w start end_ h (nth h (refined texts) "") with
            | inl e =>
                Dict.get (job_result w texts start end_ h) "error" = Some (VExc e)
                /\ Dict.get (job_result w texts start end_ h) "output" = None
            | inr r =>
                Dict.get (job_result w texts start end_ h) "error" = Some VNone
                /\ Dict.get (job_result w texts start end_ h) "output"
                   = Some (VStr (output_text r))
            end)
      /\ (forall w' h,
            (forall model prompt,
               w_openai w' h model prompt = w_openai w h model prompt) ->
            w_runtime w' h = w_runtime w h ->
            job_result w' texts start end_ h = job_result w texts start end_ h).
Proof.
  intros Hres.
  destruct (batch_returns w texts start end_ tr Hres) as [fuel0 Hret].
  exists fuel0. intros fuel Hfuel.
  destruct (Hret fuel Hfuel) as (evs & order & Hb & Hperm).
  exists evs, (map (job_result w texts start end_) order), order.
  split; [exact Hb |]. split.
  { rewrite length_map, (Permutation_length Hperm).
    unfold futures. now rewrite length_seq. }
  split; [exact Hperm |]. split; [reflexivity |]. split.
  - intros h _.
    destruct (unit_outcome w start end_ h (nth h (refined texts) ""))
      as [e | r] eqn:Ho.
    + destruct (query_failed _ _ _ _ _ e Ho) as (He & Hout & _). now split.
    + destruct (query_ok _ _ _ _ _ r Ho) as (He & Hout & _). now split.
  - intros w' h Ho Hr. unfold job_result. now apply query_local.
Qed.

Lemma batch_all_succeed_witness :
  exists fuel0, forall fuel, fuel0 <= fuel ->
    exists evs rs,
      batch Scenario.calm ["Acme Corp"; "Globex"] Scenario.jan1 Scenario.jan31
            (Some Scenario.sink) fuel = (evs, Returned rs)
      /\ List.length rs = 2
      /\ Forall (fun r => Dict.get r "error" = Some VNone) rs.
Proof.
  apply (batch_all_succeed Scenario.calm ["Acme Corp"; "Globex"]).
  - repeat constructor; unfold blank; simpl; discriminate.
  - intros h _. split; [exists h; reflexivity |].
    eexists. reflexivity.
Defined.

Lemma batch_isolates_failures_witness :
  exists fuel0, forall fuel, fuel0 <= fuel ->
    exists evs rs order,
      batch Scenario.cluster Scenario.lines Scenario.jan1 Scenario.jan31
            (Some Scenario.sink) fuel = (evs, Returned rs)
      /\ List.length rs = 2
      /\ Permutation order [0; 1]
      /\ rs = map (job_result Scenario.cluster Scenario.lines
                     Scenario.jan1 Scenario.jan31) order.
Proof.
  destruct (batch_isolates_failures Scenario.cluster Scenario.lines
              Scenario.jan1 Scenario.jan31 Scenario.sink) as [fuel0 H].
  - intros h _. exists h. reflexivity.
  - exists fuel0. intros fuel Hfuel.
    destruct (H fuel Hfuel) as (evs & rs & order & Hb & Hlen & Hperm & Hrs & _).
    exists evs, rs, order. auto.
Defined.

(** C3: a failure of a unit's external call does not come out of
    [ray.get]: the fetched dict carries it under ["error"]; and with a
    tracer the loop never ends by raising: it returns the results of all
    the handles, or handles are still pending. *)
Theorem unit_failure_never_propagates w texts start end_ tr fuel :
  (forall h, h < List.length (refined texts) ->
     ray_get w texts start end_ h
     = ([Get h], inr (job_result w texts start end_ h))
     /\ forall e, unit_outcome w start end_ h (nth h (refined texts) "") = inl e ->
                  Dict.get (job_result w texts start end_ h) "error"
                  = Some (VExc e))
  /\ match snd (batch w texts start end_ (Some tr) fuel) with
     | Returned rs =>
         exists order, rs = map (job_result w texts start end_) order
                       /\ Permutation order (futures texts)
     | Raised _ => False
     | Running st => unready st <> []
     end.
Proof.
  split.
  - intros h Hlt. split; [now apply ray_get_job |].
    intros e Ho. exact (proj1 (query_failed _ _ _ _ _ e Ho)).
  - unfold batch.
    pose proof (poll_no_fault w texts start end_ tr fuel 0 (init texts)) as H.
    destruct (poll w texts start end_ (Some tr) fuel 0 (init texts)) as [evs r].
    simpl in *. apply H. intros h Hin. now apply in_futures.
Qed.

Lemma unit_failure_never_propagates_witness :
  Dict.get (job_result Scenario.cluster Scenario.lines
              Scenario.jan1 Scenario.jan31 1) "error"
  = Some (VExc Scenario.boom).
Proof.
  apply (proj1 (unit_failure_never_propagates Scenario.cluster Scenario.lines
                  Scenario.jan1 Scenario.jan31 Scenario.sink 0) 1).
  - simpl. lia.
  - reflexivity.
Defined.

(** C7: if the unit behind a submitted handle never finishes, [batch]
    never returns a result list, whatever the number of passes, and with a
    tracer the loop is still running after any number of passes, with that
    handle pending. *)
Theorem batch_stalls_forever w texts start end_ h :
  h < List.length (refined texts) ->
  w_finish w h = None ->
  (forall tracer fuel evs rs,
     batch w texts start end_ tracer fuel <> (evs, Returned rs))
  /\ (forall tr fuel, exists evs st,
        batch w texts start end_ (Some tr) fuel = (evs, Running st)
        /\ In h (unready st)).
Proof.
  intros Hlt Hnever. assert (Hin : In h (unready (init texts))).
  { simpl. now apply in_futures. }
  split.
  - intros tracer fuel evs rs Hb. unfold batch in Hb.
    destruct (poll w texts start end_ tracer fuel 0 (init texts))
      as [evs' r] eqn:Hp.
    inversion Hb; subst.
    exact (poll_stuck_never_returns w texts start end_ tracer h fuel 0
             (init texts) evs' rs Hnever Hin Hp).
  - intros tr fuel.
    destruct (poll_stuck_running w texts start end_ tr h fuel 0 (init texts))
      as (evs & st & Hp & Hst); auto.
    + intros x Hx. now apply in_futures.
    + exists (submissions texts start end_ ++ evs), st. split; [| exact Hst].
      unfold batch. now rewrite Hp.
Qed.

Lemma batch_stalls_forever_witness :
  exists evs st,
    batch Scenario.stalled ["Acme Corp"] Scenario.jan1 Scenario.jan31
          (Some Scenario.sink) 7 = (evs, Running st)
    /\ In 0 (unready st).
Proof.
  apply (batch_stalls_forever Scenario.stalled ["Acme Corp"]
           Scenario.jan1 Scenario.jan31 0).
  - simpl. lia.
  - reflexivity.
Defined.

(** C8: at the head of the loop, after any number of passes, the counter
    of completed jobs equals the length of the results, the results are
    those of the fetched handles, and the pending handles together with the
    fetched ones are exactly the submitted handles. *)
Theorem loop_invariant w texts start end_ tracer i st :
  reachable w texts start end_ tracer i st ->
  completed_jobs st = List.length (results st)
  /\ results st = map (job_result w texts start end_) (fetched st)
  /\ Permutation (unready st ++ fetched st) (futures texts)
  /\ (forall h, In h (unready st) \/ In h (fetched st) <-> In h (futures texts)).
Proof.
  intros Hreach.
  destruct (reachable_invariant w texts start end_ tracer i st Hreach)
    as (Hc & Hr & Hp).
  repeat split; try assumption.
  - intros Hin. apply (Permutation_in _ Hp). apply in_or_app. exact Hin.
  - intros Hin. apply in_app_or.
    exact (Permutation_in _ (Permutation_sym Hp) Hin).
Qed.

Lemma loop_invariant_witness :
  completed_jobs Scenario.after_first_pass
  = List.length (results Scenario.after_first_pass)
  /\ Permutation (unready Scenario.after_first_pass
                  ++ fetched Scenario.after_first_pass)
                 (futures Scenario.lines).
Proof.
  destruct (loop_invariant Scenario.cluster Scenario.lines Scenario.jan1
              Scenario.jan31 (Some Scenario.sink) 1 Scenario.after_first_pass)
    as (Hc & _ & Hp & _).
  - eapply reach_step with (st := init Scenario.lines).
    + apply reach_init.
    + discriminate.
    + vm_compute. reflexivity.
  - split; assumption.
Defined.

(** ** Blank input *)

Lemma all_space_lstrip s : all_space s = true -> PyStr.lstrip s = "".
Proof.
  induction s as [| c r IH]; simpl; [reflexivity |].
  intros H. apply andb_prop in H as [Hc Hr]. rewrite Hc. auto.
Qed.

Lemma all_space_blank s : all_space s = true -> blank s.
Proof.
  intros H. unfold blank, PyStr.strip. now rewrite all_space_lstrip.
Qed.

Lemma rstrip_nonspace c r :
  PyStr.isspace c = false -> PyStr.rstrip (String c r) <> "".
Proof.
  intros Hc. simpl. destruct (PyStr.rstrip r); [rewrite Hc |]; discriminate.
Qed.

Lemma blank_all_space s : blank s -> all_space s = true.
Proof.
  unfold blank, PyStr.strip. induction s as [| c r IH]; [reflexivity |].
  cbn [PyStr.lstrip all_space]. destruct (PyStr.isspace c) eqn:Hc.
  - intros H. simpl. auto.
  - intros H. now apply rstrip_nonspace in H.
Qed.

Lemma blank_lines_all_space q :
  Forall blank (PyStr.split PyStr.LF q) -> all_space q = true.
Proof.
  induction q as [| c r IH]; [reflexivity |].
  cbn [PyStr.split all_space]. destruct (Ascii.eqb_spec c PyStr.LF) as [-> | Hne].
  - intros H. inversion H; subst. simpl. auto.
  - destruct (PyStr.split PyStr.LF r) as [| p ps].
    + intros H. inversion H as [| x l Hb _]; subst.
      apply blank_all_space in Hb. simpl in Hb.
      rewrite andb_true_r in Hb. rewrite Hb. simpl. apply IH. constructor.
    + intros H. inversion H as [| x l Hb Hrest]; subst.
      apply blank_all_space in Hb. simpl in Hb.
      apply andb_prop in Hb as [Hc Hp]. rewrite Hc. simpl. apply IH.
      constructor; [now apply all_space_blank | assumption].
Qed.

Lemma refine_blank texts : Forall blank texts -> refine texts = [].
Proof.
  unfold refine. induction 1 as [| t r Ht _ IH]; simpl; [reflexivity |].
  unfold blank in Ht. rewrite Ht. simpl. exact IH.
Qed.

(** A text whose lines are all blank leaves no query after [enter] has
    trimmed and split it. *)
Lemma blank_text_no_query q :
  Forall blank (PyStr.split PyStr.LF q) ->
  refine (PyStr.split PyStr.LF (PyStr.strip q)) = [].
Proof.
  intros H. apply blank_lines_all_space, all_space_blank in H.
  unfold blank in H. rewrite H. reflexivity.
Qed.

(** C10: called with nothing but blank lines, [batch] submits no job,
    makes no pass through the loop and returns the empty list, with or
    without a tracer; and so does [run_batch] on such inputs. *)
Theorem batch_blank_input w texts start end_ tracer fuel :
  Forall blank texts ->
  batch w texts start end_ tracer fuel = ([], Returned [])
  /\ forall tr,
       run_batch w [ ("texts", VTexts texts); ("start", VDate start);
                     ("end", VDate end_) ] tr fuel
       = ([], Returned []).
Proof.
  intros Hblank. apply refine_blank in Hblank.
  assert (Hb : forall tr, batch w texts start end_ tr fuel = ([], Returned [])).
  { intros tr. unfold batch, submissions, init, futures, refined.
    rewrite Hblank. destruct fuel; reflexivity. }
  split; [apply Hb |]. intros tr. unfold run_batch. simpl. apply Hb.
Qed.

Lemma batch_blank_input_witness :
  batch Scenario.cluster [""; "  "] Scenario.jan1 Scenario.jan31 None 0
  = ([], Returned []).
Proof.
  apply (batch_blank_input Scenario.cluster [""; "  "]).
  repeat constructor.
Defined.

(** ** Validation in the entry point *)

(** C6: on a form whose dates parse, if the text has no non-blank line, or
    the start date is after the end date, [enter] raises an [InputsError]
    that names the field [texts], respectively [start]; it returns no
    [Launch], so the service starts no batch: nothing is submitted to the
    executor and no call to it is made. *)
Theorem enter_rejects_before_dispatch strptime w inputs q s_text e_text s e
    tracer fuel :
  Dict.get_default inputs "texts" (VStr "") = VStr q ->
  Dict.get inputs "start" = Some (VStr s_text) -> strptime s_text = inr s ->
  Dict.get inputs "end" = Some (VStr e_text) -> strptime e_text = inr e ->
  Forall blank (PyStr.split PyStr.LF q) \/ datetime_gt s e = true ->
  exists errors,
    enter strptime inputs = ([], inl (InputsError errors))
    /\ serve strptime w inputs tracer fuel = ([], Raised (InputsError errors))
    /\ submitted (fst (serve strptime w inputs tracer fuel)) = []
    /\ executor_calls (fst (serve strptime w inputs tracer fuel)) = []
    /\ (Forall blank (PyStr.split PyStr.LF q) ->
        In "texts" (error_fields (InputsError errors)))
    /\ (datetime_gt s e = true ->
        In "start" (error_fields (InputsError errors))).
Proof.
  intros Hq Hs Hps He Hpe Hbad.
  assert (Henter : forall errors,
    enter strptime inputs = ([], inl (InputsError errors)) ->
    serve strptime w inputs tracer fuel = ([], Raised (InputsError errors))
    /\ submitted (fst (serve strptime w inputs tracer fuel)) = []
    /\ executor_calls (fst (serve strptime w inputs tracer fuel)) = []).
  { intros errors Hen. unfold serve. rewrite Hen. auto. }
  pose proof (blank_text_no_query q) as Hblank.
  unfold enter in *. rewrite Hq, Hs, He in *. unfold parse_date in *.
  rewrite Hps, Hpe in *. cbn [bind ret fst snd app] in *.
  destruct (refine (PyStr.split PyStr.LF (PyStr.strip q))) as [| t ts] eqn:Ht;
    destruct (datetime_gt s e) eqn:Hgt; cbn [add_error has_errors String.eqb] in *.
  - eexists. split; [reflexivity |].
    destruct (Henter _ eq_refl) as (H1 & H2 & H3).
    repeat split; try assumption; intros _; simpl; auto.
  - eexists. split; [reflexivity |].
    destruct (Henter _ eq_refl) as (H1 & H2 & H3).
    repeat split; try assumption; [intros _; simpl; auto | discriminate].
  - eexists. split; [reflexivity |].
    destruct (Henter _ eq_refl) as (H1 & H2 & H3).
    repeat split; try assumption; [| intros _; simpl; auto].
    intros Hb. apply Hblank in Hb. discriminate.
  - destruct Hbad as [Hb | Hb]; [apply Hblank in Hb |]; discriminate.
Qed.

Lemma enter_rejects_before_dispatch_witness :
  exists errors,
    enter Scenario.strptime
      [ ("texts", VStr "  "); ("start", VStr "2024-02-01");
        ("end", VStr "2024-01-31") ]
    = ([], inl (InputsError errors))
    /\ error_fields (InputsError errors) = ["texts"; "start"].
Proof.
  destruct (enter_rejects_before_dispatch Scenario.strptime Scenario.cluster
              [ ("texts", VStr "  "); ("start", VStr "2024-02-01");
                ("end", VStr "2024-01-31") ]
              "  " "2024-02-01" "2024-01-31"
              (mkDate 2024 2 1 0) (mkDate 2024 1 31 0) Scenario.sink 0)
    as (errors & Hen & _); try reflexivity.
  - right. reflexivity.
  - exists errors. split; [exact Hen |].
    vm_compute in Hen. now inversion Hen.
Defined.

(** ** The delay after the wait *)

(** C9, as stated: the extra delay does not belong to the idle branch
    only.  The first pass over the scenario fetches a result and sleeps. *)
Lemma delay_also_when_productive : ~ delay_only_when_idle.
Proof.
  intros H.
  assert (Hrun : exists evs st',
    iteration Scenario.cluster Scenario.lines Scenario.jan1 Scenario.jan31
      (Some Scenario.sink) 0 (init Scenario.lines) = (evs, inr st')
    /\ In (Sleep 1) evs).
  { vm_compute. eexists. eexists. split; [reflexivity |].
    repeat (first [left; reflexivity | right]). }
  destruct Hrun as (evs & st' & Hit & Hin).
  specialize (H _ _ _ _ _ _ _ _ _ Hit Hin). vm_compute in H. discriminate.
Qed.

(** C9, amended: every pass that completes, whether [ray.wait] reported a
    handle or not, starts with the bounded wait and ends with the
    one-second sleep; a pass in which [ray.wait] reported no handle does
    nothing else and leaves the loop variables as they were. *)
Theorem delay_on_every_pass w texts start end_ tracer i st evs st' :
  iteration w texts start end_ tracer i st = (evs, inr st') ->
  (exists evs0, evs = Wait (unready st) 1 1 :: evs0 ++ [Sleep 1])
  /\ (fst (ray_wait w i (unready st)) = [] ->
      evs = [Wait (unready st) 1 1; Sleep 1] /\ st' = st).
Proof.
  intros Hit. split.
  - unfold iteration in Hit.
    destruct (ray_wait w i (unready st)) as [ready u].
    apply bind_inr in Hit as (e1 & [] & e2 & He1 & Hit & ->).
    apply bind_inr in Hit as (e3 & st1 & e4 & _ & Hs & ->).
    cbn in He1, Hs. inversion He1; subst e1. inversion Hs; subst.
    exists e3. reflexivity.
  - intros Hidle. rewrite (iteration_idle w texts start end_ tracer i st Hidle) in Hit.
    inversion Hit. auto.
Qed.

Lemma delay_on_every_pass_witness :
  exists evs0,
    fst (iteration Scenario.cluster Scenario.lines Scenario.jan1 Scenario.jan31
           (Some Scenario.sink) 0 (init Scenario.lines))
    = Wait [0; 1] 1 1 :: evs0 ++ [Sleep 1].
Proof.
  destruct (delay_on_every_pass Scenario.cluster Scenario.lines Scenario.jan1
              Scenario.jan31 (Some Scenario.sink) 0 (init Scenario.lines)
              (fst (iteration Scenario.cluster Scenario.lines Scenario.jan1
                      Scenario.jan31 (Some Scenario.sink) 0 (init Scenario.lines)))
              (advance Scenario.cluster Scenario.lines Scenario.jan1
                 Scenario.jan31 0 (init Scenario.lines)))
    as [[evs0 H] _].
  - vm_compute. reflexivity.
  - exists evs0. exact H.
Defined.

(** ** The scenario, run *)

(** C4, on the code: for the lines ["Acme Corp"; ""; "  "; "Globex"] two
    jobs run and both complete, and the two progress lines read 25% and
    50%: the fraction is taken over the four input lines, not over the two
    jobs, and the last event does not report 100%. *)
Theorem progress_counts_input_lines :
  exists evs rs,
    batch Scenario.cluster Scenario.lines Scenario.jan1 Scenario.jan31
          (Some Scenario.sink) 2 = (evs, Returned rs)
    /\ List.length rs = 2
    /\ List.length (submitted evs) = 2
    /\ markdowns evs
       = [ "#### Acme Corp"; "1/4 = 25%"; "* 2024-01-05 - news";
           "#### Globex"; "2/4 = 50%"; "**Error:** boom" ].
Proof.
  vm_compute. eexists. eexists. repeat split; reflexivity.
Qed.

(** C5, on the code: without a tracer the first completed job makes
    [batch] raise [AttributeError] instead of returning; with a tracer the
    same batch returns its one result. *)
Theorem absent_tracer_raises :
  batch Scenario.calm ["Acme Corp"] Scenario.jan1 Scenario.jan31 None 1
  = ( [ Submit 0 "Acme Corp" Scenario.jan1 Scenario.jan31;
        Wait [0] 1 1; Get 0 ],
      Raised (AttributeError "NoneType" "markdown") )
  /\ exists evs r,
       batch Scenario.calm ["Acme Corp"] Scenario.jan1 Scenario.jan31
             (Some Scenario.sink) 1 = (evs, Returned [r]).
Proof.
  split.
  - vm_compute. reflexivity.
  - vm_compute. eexists. eexists. reflexivity.
Qed.

(** * Further properties of the code *)

(** ** Trimming and splitting *)

Lemma all_space_rstrip s : all_space s = true -> PyStr.rstrip s = "".
Proof.
  induction s as [| c r IH]; simpl; [reflexivity |].
  intros H. apply andb_prop in H as [Hc Hr]. now rewrite (IH Hr), Hc.
Qed.

Lemma rstrip_cons c r :
  PyStr.rstrip (String c r)
  = match PyStr.rstrip r with
    | EmptyString => if PyStr.isspace c then EmptyString else String c EmptyString
    | r' => String c r'
    end.
Proof. reflexivity. Qed.

Lemma rstrip_idempotent s : PyStr.rstrip (PyStr.rstrip s) = PyStr.rstrip s.
Proof.
  induction s as [| c r IH]; [reflexivity |].
  rewrite rstrip_cons. destruct (PyStr.rstrip r) as [| a b] eqn:Hr.
  - destruct (PyStr.isspace c) eqn:Hc; [reflexivity |]. simpl. now rewrite Hc.
  - now rewrite rstrip_cons, IH.
Qed.

Lemma lstrip_head s :
  PyStr.lstrip s = ""
  \/ exists c r, PyStr.lstrip s = String c r /\ PyStr.isspace c = false.
Proof.
  induction s as [| c r IH]; simpl; [now left |].
  destruct (PyStr.isspace c) eqn:Hc; [exact IH |]. right. now exists c, r.
Qed.

Lemma rstrip_head c r :
  PyStr.isspace c = false ->
  exists r', PyStr.rstrip (String c r) = String c r'.
Proof.
  intros Hc. simpl. destruct (PyStr.rstrip r) as [| a b].
  - rewrite Hc. now exists "".
  - now exists (String a b).
Qed.

Lemma strip_idempotent s : PyStr.strip (PyStr.strip s) = PyStr.strip s.
Proof.
  unfold PyStr.strip.
  destruct (lstrip_head s) as [-> | (c & r & -> & Hc)]; [reflexivity |].
  destruct (rstrip_head c r Hc) as [r' Hr]. rewrite Hr at 1.
  cbn [PyStr.lstrip]. rewrite Hc, <- Hr. apply rstrip_idempotent.
Qed.

Lemma rstrip_app_space y p :
  all_space p = true -> PyStr.rstrip (y ++ p) = PyStr.rstrip y.
Proof.
  intros Hp. induction y as [| c r IH]; simpl.
  - now apply all_space_rstrip.
  - now rewrite IH.
Qed.

Lemma strip_app_space x p :
  all_space p = true -> PyStr.strip (x ++ p) = PyStr.strip x.
Proof.
  intros Hp. unfold PyStr.strip. induction x as [| c r IH]; simpl.
  - now rewrite all_space_lstrip.
  - destruct (PyStr.isspace c); [exact IH |].
    exact (rstrip_app_space (String c r) p Hp).
Qed.

Lemma rstrip_decompose s :
  exists p, all_space p = true /\ s = (PyStr.rstrip s ++ p)%string.
Proof.
  induction s as [| c r (p & Hp & Hr)]; [now exists "" |].
  cbn [PyStr.rstrip]. destruct (PyStr.rstrip r) as [| a b] eqn:Hrs.
  - simpl in Hr. subst r. destruct (PyStr.isspace c) eqn:Hc.
    + exists (String c p). simpl. now rewrite Hc, Hp.
    + exists p. auto.
  - exists p. split; [assumption |]. simpl. f_equal. exact Hr.
Qed.

Lemma split_nonempty sep s : PyStr.split sep s <> [].
Proof.
  destruct s as [| c r]; simpl; [discriminate |].
  destruct (Ascii.eqb c sep); [discriminate |].
  destruct (PyStr.split sep r); discriminate.
Qed.

Lemma with_prefix_empty lines : lines <> [] -> with_prefix "" lines = lines.
Proof. destruct lines; [congruence | reflexivity]. Qed.

Lemma isspace_LF : PyStr.isspace PyStr.LF = true.
Proof. reflexivity. Qed.

(** The lines of an all-whitespace text are all blank. *)
Lemma all_space_blank_lines q :
  all_space q = true -> Forall blank (PyStr.split PyStr.LF q).
Proof.
  induction q as [| c r IH]; simpl.
  - intros _. repeat constructor.
  - intros H. apply andb_prop in H as [Hc Hr]. specialize (IH Hr).
    destruct (Ascii.eqb c PyStr.LF).
    + constructor; [reflexivity | assumption].
    + destruct (PyStr.split PyStr.LF r) as [| p ps].
      * repeat constructor. apply all_space_blank. simpl. now rewrite Hc.
      * inversion IH as [| x l Hb Hrest]; subst. constructor; [| assumption].
        apply all_space_blank. simpl. rewrite Hc. now apply blank_all_space.
Qed.

Lemma refine_cons t l :
  refine (t :: l)
  = if PyStr.truthy (PyStr.strip t) then PyStr.strip t :: refine l
    else refine l.
Proof.
  unfold refine. simpl. now destruct (PyStr.truthy (PyStr.strip t)).
Qed.

Lemma append_cons_assoc pre c p :
  ((pre ++ String c "") ++ p)%string = (pre ++ String c p)%string.
Proof.
  induction pre as [| a r IH]; simpl; [reflexivity |]. now rewrite IH.
Qed.

Lemma append_empty_r s : (s ++ "")%string = s.
Proof.
  induction s as [| a r IH]; simpl; [reflexivity |]. now rewrite IH.
Qed.

(** Whitespace after the text adds no query, whatever precedes the
    text's first line. *)
Lemma refine_split_app_space w : all_space w = true ->
  forall s pre,
    refine (with_prefix pre (PyStr.split PyStr.LF (s ++ w)))
    = refine (with_prefix pre (PyStr.split PyStr.LF s)).
Proof.
  intros Hw. induction s as [| c r IH]; intros pre.
  - cbn [append PyStr.split with_prefix].
    pose proof (all_space_blank_lines w Hw) as Hb.
    destruct (PyStr.split PyStr.LF w) as [| p ps] eqn:Hs.
    + now apply split_nonempty in Hs.
    + inversion Hb as [| x l Hp Hps]; subst. cbn [with_prefix].
      rewrite !refine_cons, (refine_blank ps Hps).
      rewrite (strip_app_space pre p (blank_all_space p Hp)).
      now rewrite append_empty_r.
  - cbn [append PyStr.split]. destruct (Ascii.eqb c PyStr.LF).
    + cbn [with_prefix]. rewrite !refine_cons.
      specialize (IH "").
      rewrite !with_prefix_empty in IH by apply split_nonempty.
      now rewrite IH.
    + specialize (IH (pre ++ String c "")%string).
      destruct (PyStr.split PyStr.LF (r ++ w)) as [| p ps] eqn:H1;
        [now apply split_nonempty in H1 |].
      destruct (PyStr.split PyStr.LF r) as [| p0 ps0] eqn:H2;
        [now apply split_nonempty in H2 |].
      cbn [with_prefix] in *. now rewrite !append_cons_assoc in IH.
Qed.

Lemma refine_split_lstrip q :
  refine (PyStr.split PyStr.LF (PyStr.lstrip q))
  = refine (PyStr.split PyStr.LF q).
Proof.
  induction q as [| c r IH]; [reflexivity |].
  cbn [PyStr.lstrip]. destruct (PyStr.isspace c) eqn:Hc; [| reflexivity].
  rewrite IH. cbn [PyStr.split]. destruct (Ascii.eqb c PyStr.LF).
  - now rewrite refine_cons.
  - destruct (PyStr.split PyStr.LF r) as [| p ps] eqn:Hs;
      [now apply split_nonempty in Hs |].
    rewrite !refine_cons. unfold PyStr.strip. cbn [PyStr.lstrip].
    now rewrite Hc.
Qed.

Lemma strip_then_split q :
  refine (PyStr.split PyStr.LF (PyStr.strip q))
  = refine (PyStr.split PyStr.LF q).
Proof.
  unfold PyStr.strip. rewrite <- (refine_split_lstrip q).
  destruct (rstrip_decompose (PyStr.lstrip q)) as (p & Hp & Hq).
  rewrite Hq at 2.
  pose proof (refine_split_app_space p Hp (PyStr.rstrip (PyStr.lstrip q)) "")
    as H.
  rewrite !with_prefix_empty in H by apply split_nonempty.
  now rewrite H.
Qed.

(** X1: in [enter], trimming the whole text before it is split changes
    nothing: the queries are the trimmed non-blank lines of the text as it
    was typed, in their order. *)
Theorem refine_split_strip q :
  refine (PyStr.split PyStr.LF (PyStr.strip q))
  = map PyStr.strip
      (filter (fun t => PyStr.truthy (PyStr.strip t))
              (PyStr.split PyStr.LF q)).
Proof. apply strip_then_split. Qed.

(** ** The job texts *)

Lemma refine_trimmed l : Forall trimmed (refine l).
Proof.
  induction l as [| t r IH]; [constructor |].
  rewrite refine_cons. destruct (PyStr.strip t) as [| c s] eqn:Ht; [exact IH |].
  cbn [PyStr.truthy]. constructor; [| exact IH].
  split; [| discriminate]. rewrite <- Ht. apply strip_idempotent.
Qed.

Lemma refine_fixed l : Forall trimmed l -> refine l = l.
Proof.
  induction 1 as [| t r [Ht Hne] _ IH]; [reflexivity |].
  rewrite refine_cons, Ht, IH. destruct t; [congruence | reflexivity].
Qed.

Lemma refine_nonempty_iff l :
  refine l <> [] <-> Exists (fun t => ~ blank t) l.
Proof.
  induction l as [| t r IH].
  - split; [intros H; now elim H | intros H; inversion H].
  - rewrite refine_cons. unfold blank.
    destruct (PyStr.strip t) as [| c s] eqn:Ht; cbn [PyStr.truthy].
    + rewrite IH. split; [intros H; now apply Exists_cons_tl |].
      intros H. inversion H as [x l Hx | x l Hx]; subst; [| assumption].
      now elim Hx.
    + split; [| discriminate]. intros _. apply Exists_cons_hd.
      rewrite Ht. discriminate.
Qed.

(** X2: every job text that [batch] submits is non-empty and has nothing
    left to trim, and filtering such texts again keeps them all: on a list
    that is already refined, as [enter] passes it, [batch] makes one job
    per line. *)
Theorem refined_jobs_trimmed texts :
  Forall trimmed (refined texts)
  /\ refined (refined texts) = refined texts
  /\ List.length (refined (refined texts)) = List.length (refined texts).
Proof.
  assert (H : refined (refined texts) = refined texts).
  { unfold refined. apply refine_fixed, refine_trimmed. }
  split; [apply refine_trimmed |]. split; [exact H | now rewrite H].
Qed.

(** ** The entry point on any form *)

Section EntryFacts.

Variable strptime : string -> exn + datetime.

(** What [enter] does once the text and the two dates are read. *)
Lemma enter_parsed inputs q s_text e_text s e :
  Dict.get_default inputs "texts" (VStr "") = VStr q ->
  Dict.get inputs "start" = Some (VStr s_text) -> strptime s_text = inr s ->
  Dict.get inputs "end" = Some (VStr e_text) -> strptime e_text = inr e ->
  enter strptime inputs
  = match refine (PyStr.split PyStr.LF q), datetime_gt s e with
    | [], true =>
        ([], inl (InputsError
                    [ ("texts", ["Please specify a query to search for news."]);
                      ("start", ["Must be before or equal to end date."]) ]))
    | [], false =>
        ([], inl (InputsError
                    [ ("texts", ["Please specify a query to search for news."]) ]))
    | _ :: _, true =>
        ([], inl (InputsError
                    [ ("start", ["Must be before or equal to end date."]) ]))
    | t :: ts, false =>
        ([], inr (mkLaunch "company_news.query:run_batch"
                    [ ("texts", VTexts (t :: ts)); ("start", VDate s);
                      ("end", VDate e) ]))
    end.
Proof.
  intros Hq Hs Hps He Hpe. unfold enter. rewrite Hq, Hs, He.
  unfold parse_date. rewrite Hps, Hpe. cbn [bind ret fst snd app].
  rewrite strip_then_split.
  destruct (refine (PyStr.split PyStr.LF q)); destruct (datetime_gt s e);
    reflexivity.
Qed.

(** X3: on a form whose dates parse, [enter] returns a [Launch] exactly
    when some line of the text is not blank and the start is not after the
    end; the launch then names [run_batch] and carries the trimmed
    non-blank lines of the text, in order, with the two parsed dates. *)
Theorem enter_launches_valid_form inputs q s_text e_text s e :
  Dict.get_default inputs "texts" (VStr "") = VStr q ->
  Dict.get inputs "start" = Some (VStr s_text) -> strptime s_text = inr s ->
  Dict.get inputs "end" = Some (VStr e_text) -> strptime e_text = inr e ->
  ((exists l, enter strptime inputs = ([], inr l))
   <-> Exists (fun t => ~ blank t) (PyStr.split PyStr.LF q)
       /\ datetime_gt s e = false)
  /\ (forall evs l, enter strptime inputs = (evs, inr l) ->
        evs = []
        /\ l = mkLaunch "company_news.query:run_batch"
                 [ ("texts", VTexts (refine (PyStr.split PyStr.LF q)));
                   ("start", VDate s); ("end", VDate e) ]).
Proof.
  intros Hq Hs Hps He Hpe.
  rewrite (enter_parsed inputs q s_text e_text s e Hq Hs Hps He Hpe).
  rewrite <- refine_nonempty_iff.
  destruct (refine (PyStr.split PyStr.LF q)) as [| t ts];
    destruct (datetime_gt s e).
  - split; [split |].
    + intros [l H]. discriminate.
    + intros [H _]. now elim H.
    + intros evs l H. discriminate.
  - split; [split |].
    + intros [l H]. discriminate.
    + intros [H _]. now elim H.
    + intros evs l H. discriminate.
  - split; [split |].
    + intros [l H]. discriminate.
    + intros [_ H]. discriminate.
    + intros evs l H. discriminate.
  - split; [split |].
    + intros _. split; [discriminate | reflexivity].
    + intros _. eexists. reflexivity.
    + intros evs l H. inversion H. auto.
Qed.

(** X4: a date that is missing or does not parse makes [enter] raise that
    fault, start before end, and not an [InputsError]: a missing date is a
    [TypeError], a date that does not parse raises what [strptime] raised,
    and no field error is reported then, whatever the text is. *)
Theorem enter_date_fault inputs q :
  Dict.get_default inputs "texts" (VStr "") = VStr q ->
  (Dict.get inputs "start" = None ->
   exists x, enter strptime inputs = ([], inl x)
             /\ exc_class x = "TypeError" /\ exc_errors x = [])
  /\ (forall s_text x,
        Dict.get inputs "start" = Some (VStr s_text) ->
        strptime s_text = inl x ->
        enter strptime inputs = ([], inl x))
  /\ (forall s_text s,
        Dict.get inputs "start" = Some (VStr s_text) ->
        strptime s_text = inr s ->
        (Dict.get inputs "end" = None ->
         exists x, enter strptime inputs = ([], inl x)
                   /\ exc_class x = "TypeError" /\ exc_errors x = [])
        /\ (forall e_text x,
              Dict.get inputs "end" = Some (VStr e_text) ->
              strptime e_text = inl x ->
              enter strptime inputs = ([], inl x))).
Proof.
  intros Hq. unfold enter. rewrite Hq. unfold parse_date.
  split; [| split].
  - intros ->. eexists. repeat split; reflexivity.
  - intros s_text x -> Hx. rewrite Hx. reflexivity.
  - intros s_text s -> Hs. rewrite Hs. split.
    + intros ->. eexists. repeat split; reflexivity.
    + intros e_text x -> Hx. rewrite Hx. reflexivity.
Qed.

End EntryFacts.

Lemma enter_launches_valid_form_witness :
  enter Scenario.strptime
    [ ("texts", VStr " Acme Corp "); ("start", VStr "2024-01-01");
      ("end", VStr "2024-01-31") ]
  = ([], inr (mkLaunch "company_news.query:run_batch"
                [ ("texts", VTexts ["Acme Corp"]);
                  ("start", VDate Scenario.jan1);
                  ("end", VDate Scenario.jan31) ])).
Proof.
  pose proof (enter_launches_valid_form Scenario.strptime
                [ ("texts", VStr " Acme Corp "); ("start", VStr "2024-01-01");
                  ("end", VStr "2024-01-31") ]
                " Acme Corp " "2024-01-01" "2024-01-31"
                Scenario.jan1 Scenario.jan31
                eq_refl eq_refl eq_refl eq_refl eq_refl) as [[_ Hex] Hl].
  destruct Hex as [l Hen].
  - split; [| reflexivity]. apply Exists_cons_hd. unfold blank. simpl.
    discriminate.
  - destruct (Hl [] l Hen) as [_ ->]. exact Hen.
Defined.

Lemma enter_date_fault_witness :
  enter Scenario.strptime [ ("texts", VStr "Acme Corp"); ("start", VStr "soon") ]
  = ([], inl (mk_exn "ValueError" "time data does not match format")).
Proof.
  apply (proj1 (proj2 (enter_date_fault Scenario.strptime
                         [ ("texts", VStr "Acme Corp"); ("start", VStr "soon") ]
                         "Acme Corp" eq_refl)) "soon");
    reflexivity.
Defined.

(** ** The trace of the loop *)

Ltac step_monad :=
  cbn [bind emit ret raise truediv tracer_markdown tracer_html truthy fst snd].

Section TraceFacts.

Variable w : world.
Variable texts : list string.
Variables start end_ : datetime.

Lemma iteration_trace tr i st :
  (forall h, In h (unready st) -> h < List.length (refined texts)) ->
  iteration w texts start end_ (Some tr) i st
  = (pass_events w texts start end_ i st,
     inr (advance w texts start end_ i st)).
Proof.
  intros Hb. unfold iteration, advance, pass_events.
  destruct (ray_wait_cases w i (unready st)) as [[Hw _] | [h [Hw [Hin _]]]];
    rewrite Hw; [reflexivity |].
  assert (Hlt := Hb h Hin).
  assert (Ht : List.length texts <> 0).
  { pose proof (refine_length texts). unfold refined in Hlt. lia. }
  unfold report_body, fraction_line, job_line.
  destruct (List.length texts) as [| n] eqn:Hlen; [congruence |].
  rewrite (ray_get_job w texts start end_ h Hlt). unfold getitem.
  destruct (unit_outcome w start end_ h (nth h (refined texts) ""))
    as [e | r] eqn:Ho.
  - destruct (query_failed _ _ _ _ _ e Ho) as [He [_ Hq]].
    fold (job_result w texts start end_ h) in He, Hq. step_monad.
    rewrite Hq, He. step_monad. reflexivity.
  - destruct (query_ok _ _ _ _ _ r Ho) as [He [Hout Hq]].
    fold (job_result w texts start end_ h) in He, Hout, Hq. step_monad.
    rewrite Hq, He. step_monad. rewrite Hout. step_monad. reflexivity.
Qed.

Lemma gets_app a b : gets (a ++ b) = gets a ++ gets b.
Proof.
  induction a as [| ev r IH]; simpl; [reflexivity |].
  destruct ev; simpl; now rewrite IH.
Qed.

Lemma print_lines_app a b : print_lines (a ++ b) = print_lines a ++ print_lines b.
Proof.
  induction a as [| ev r IH]; simpl; [reflexivity |].
  destruct ev; simpl; now rewrite IH.
Qed.

Lemma submitted_app a b : submitted (a ++ b) = submitted a ++ submitted b.
Proof. apply filter_app. Qed.

Lemma sleeps_app a b : sleeps (a ++ b) = sleeps a + sleeps b.
Proof. unfold sleeps. now rewrite filter_app, length_app. Qed.

Lemma waits_app a b : waits (a ++ b) = waits a + waits b.
Proof. unfold waits. now rewrite filter_app, length_app. Qed.

(** The submissions are [Submit] events and nothing else. *)
Lemma submissions_only :
  submitted (submissions texts start end_) = submissions texts start end_
  /\ gets (submissions texts start end_) = []
  /\ print_lines (submissions texts start end_) = []
  /\ sleeps (submissions texts start end_) = 0
  /\ waits (submissions texts start end_) = 0.
Proof.
  unfold submissions, sleeps, waits, submitted.
  induction (combine (futures texts) (refined texts)) as [| ht r IH]; simpl.
  - repeat split; reflexivity.
  - destruct IH as (H1 & H2 & H3 & H4 & H5). rewrite H1. repeat split; assumption.
Qed.

(** What one pass with a tracer adds to the trace. *)
Lemma pass_events_summary i st :
  gets (pass_events w texts start end_ i st)
  = firstn 1 (fst (ray_wait w i (unready st)))
  /\ print_lines (pass_events w texts start end_ i st)
     = map (fun _ => job_line (S (completed_jobs st)) (List.length texts))
           (firstn 1 (fst (ray_wait w i (unready st))))
  /\ submitted (pass_events w texts start end_ i st) = []
  /\ sleeps (pass_events w texts start end_ i st) = 1
  /\ waits (pass_events w texts start end_ i st) = 1.
Proof.
  unfold pass_events.
  destruct (ray_wait w i (unready st)) as [[| h ready] u]; simpl;
    repeat split; reflexivity.
Qed.

(** A run of the loop that returns, with a tracer: what it fetched, what
    it printed, how often it waited and slept. *)
Lemma poll_trace tr fuel : forall i st evs rs,
  (forall h, In h (unready st) -> h < List.length (refined texts)) ->
  poll w texts start end_ (Some tr) fuel i st = (evs, Returned rs) ->
  exists order,
    Permutation order (unready st)
    /\ rs = results st ++ map (job_result w texts start end_) order
    /\ gets evs = order
    /\ print_lines evs
       = map (fun k => job_line k (List.length texts))
             (seq (S (completed_jobs st)) (List.length order))
    /\ submitted evs = []
    /\ sleeps evs = waits evs
    /\ List.length order <= sleeps evs.
Proof.
  induction fuel as [| fuel IH]; intros i st evs rs Hb Hp; simpl in Hp;
    destruct (unready st) as [| h0 u0] eqn:Hu;
    try (inversion Hp; subst; exists []; simpl; rewrite app_nil_r;
         repeat split; auto; fail);
    try discriminate.
  rewrite <- Hu in Hb |- *.
  rewrite (iteration_trace tr i st Hb) in Hp.
  destruct (poll w texts start end_ (Some tr) fuel (S i)
              (advance w texts start end_ i st)) as [evs' r] eqn:Hp'.
  inversion Hp; subst; clear Hp.
  destruct (IH _ _ _ _
              (fun h Hin => Hb h (advance_unready w texts start end_ i st h Hin))
              Hp')
    as (order' & Hperm & Hrs & Hg & Hpl & Hsub & Hsw & Hlen).
  destruct (pass_events_summary i st) as (Pg & Pp & Ps & Psl & Pw).
  rewrite gets_app, print_lines_app, submitted_app, sleeps_app, waits_app.
  rewrite Pg, Pp, Ps, Psl, Pw, Hg, Hpl, Hsub. clear Pg Pp Ps Psl Pw.
  unfold advance in *.
  destruct (ray_wait_cases w i (unready st)) as [[Hw _] | [h [Hw [Hin _]]]];
    rewrite Hw in *; simpl in *.
  - exists order'. repeat split; auto; lia.
  - exists (h :: order'). split.
    { rewrite (remove_handle_perm h (unready st) Hin). now constructor. }
    split; [now rewrite Hrs, <- app_assoc |].
    repeat split; auto; simpl; lia.
Qed.

Lemma map_nth_seq (l : list string) d :
  map (fun h => nth h l d) (seq 0 (List.length l)) = l.
Proof.
  induction l as [| a r IH]; simpl; [reflexivity |].
  f_equal. rewrite <- seq_shift, map_map. exact IH.
Qed.

Lemma job_result_query h :
  Dict.get (job_result w texts start end_ h) "query"
  = Some (VStr (nth h (refined texts) "")).
Proof.
  unfold job_result.
  destruct (unit_outcome w start end_ h (nth h (refined texts) ""))
    as [e | r] eqn:Ho.
  - exact (proj2 (proj2 (query_failed _ _ _ _ _ e Ho))).
  - exact (proj2 (proj2 (query_ok _ _ _ _ _ r Ho))).
Qed.

(** The passes needed are bounded: idle passes end once every pending
    unit has finished. *)
Lemma poll_passes_bound tr T fuel : forall i st evs r,
  (forall h, In h (unready st) ->
     h < List.length (refined texts)
     /\ exists t, w_finish w h = Some t /\ t <= T) ->
  poll w texts start end_ (Some tr) fuel i st = (evs, r) ->
  waits evs <= (T - i) + List.length (unready st).
Proof.
  induction fuel as [| fuel IH]; intros i st evs r Hfin Hp; simpl in Hp;
    destruct (unready st) as [| h0 u0] eqn:Hu;
    try (inversion Hp; subst; unfold waits; simpl; lia).
  rewrite <- Hu in Hfin |- *.
  rewrite (iteration_trace tr i st (fun h Hin => proj1 (Hfin h Hin))) in Hp.
  destruct (poll w texts start end_ (Some tr) fuel (S i)
              (advance w texts start end_ i st)) as [evs' r'] eqn:Hp'.
  inversion Hp; subst; clear Hp.
  assert (Hle := IH _ _ _ _
    (fun h Hin => Hfin h (advance_unready w texts start end_ i st h Hin)) Hp').
  rewrite waits_app.
  destruct (pass_events_summary i st) as (_ & _ & _ & _ & ->).
  unfold advance in Hle.
  destruct (ray_wait_cases w i (unready st)) as [[Hw Hno] | [h [Hw [Hin _]]]];
    rewrite Hw in Hle; simpl in Hle.
  - assert (Hh : In h0 (unready st)) by (rewrite Hu; now left).
    destruct (Hfin h0 Hh) as [_ [t [Ht HtT]]].
    specialize (Hno h0 Hh). unfold is_ready in Hno. rewrite Ht in Hno.
    apply Nat.leb_gt in Hno. lia.
  - pose proof (remove_handle_length h _ Hin). lia.
Qed.

End TraceFacts.

(** ** Whole runs of [batch] *)

Section RunFacts.

Variable w : world.
Variable texts : list string.
Variables start end_ : datetime.

Lemma futures_nodup : NoDup (futures texts).
Proof. apply seq_NoDup. Qed.

(** A run of [batch] with a tracer that returned. *)
Lemma batch_trace tr fuel evs rs :
  batch w texts start end_ (Some tr) fuel = (evs, Returned rs) ->
  exists order,
    Permutation order (futures texts)
    /\ rs = map (job_result w texts start end_) order
    /\ gets evs = order
    /\ print_lines evs
       = map (fun k => job_line k (List.length texts))
             (seq 1 (List.length (refined texts)))
    /\ submitted evs = submissions texts start end_
    /\ sleeps evs = waits evs
    /\ List.length (refined texts) <= sleeps evs.
Proof.
  unfold batch.
  destruct (poll w texts start end_ (Some tr) fuel 0 (init texts))
    as [evs' r] eqn:Hp.
  intros H. inversion H; subst; clear H.
  destruct (poll_trace w texts start end_ tr fuel 0 (init texts) evs' rs)
    as (order & Hperm & Hrs & Hg & Hpl & Hsub & Hsw & Hlen); [| exact Hp |].
  { simpl. intros h Hin. now apply in_futures. }
  simpl in Hperm, Hrs, Hpl.
  destruct (submissions_only texts start end_) as (S1 & S2 & S3 & S4 & S5).
  rewrite gets_app, print_lines_app, submitted_app, sleeps_app, waits_app.
  rewrite S1, S2, S3, S4, S5, Hsub, app_nil_r. simpl.
  assert (Hn : List.length order = List.length (refined texts)).
  { rewrite (Permutation_length Hperm). unfold futures. apply length_seq. }
  exists order. rewrite <- Hn. repeat split; auto.
Qed.

End RunFacts.

(** X5: with a tracer, a pass in which [ray.wait] reports a handle does,
    in this order: the wait, the fetch, the header with the job's query
    text, the completion line, the job's output or its error after the
    marker, the divider, the printed line, the sleep; it appends the
    fetched dict to the results and counts the job. *)
Theorem pass_reports_in_order w texts start end_ tr i st h ready u :
  (forall x, In x (unready st) -> x < List.length (refined texts)) ->
  ray_wait w i (unready st) = (h :: ready, u) ->
  iteration w texts start end_ (Some tr) i st
  = ( [ Wait (unready st) 1 1; Get h;
        Markdown ("#### " ++ nth h (refined texts) "");
        Markdown (fraction_line (S (completed_jobs st)) (List.length texts));
        Markdown
          match unit_outcome w start end_ h (nth h (refined texts) "") with
          | inl e => "**Error:** " ++ exc_message e
          | inr r => output_text r
          end;
        Html "<div class='large-divider'></div>";
        PrintLine (job_line (S (completed_jobs st)) (List.length texts));
        Sleep 1 ],
      inr (mkState u (S (completed_jobs st))
             (results st ++ [job_result w texts start end_ h])
             (fetched st ++ [h])) ).
Proof.
  intros Hb Hw. rewrite (iteration_trace w texts start end_ tr i st Hb).
  unfold pass_events, advance, report_body. now rewrite Hw.
Qed.

Lemma pass_reports_in_order_witness :
  fst (iteration Scenario.cluster Scenario.lines Scenario.jan1 Scenario.jan31
         (Some Scenario.sink) 1 Scenario.after_first_pass)
  = [ Wait [1] 1 1; Get 1; Markdown "#### Globex"; Markdown "2/4 = 50%";
      Markdown "**Error:** boom"; Html "<div class='large-divider'></div>";
      PrintLine "Job completed (2/4)"; Sleep 1 ].
Proof.
  rewrite (pass_reports_in_order Scenario.cluster Scenario.lines Scenario.jan1
             Scenario.jan31 Scenario.sink 1 Scenario.after_first_pass 1 [] []).
  - vm_compute. reflexivity.
  - vm_compute. intros x [<- | []]. lia.
  - vm_compute. reflexivity.
Defined.

(** X6: in a run of [batch] that returns, every job's result is fetched
    exactly once, the results stand in the order of the fetches, the only
    submissions are the initial ones, and the printed counter runs from 1
    to the number of jobs over the number of input lines. *)
Theorem batch_fetches_each_job_once w texts start end_ tr fuel evs rs :
  batch w texts start end_ (Some tr) fuel = (evs, Returned rs) ->
  Permutation (gets evs) (futures texts)
  /\ NoDup (gets evs)
  /\ rs = map (job_result w texts start end_) (gets evs)
  /\ submitted evs = submissions texts start end_
  /\ print_lines evs
     = map (fun k => job_line k (List.length texts))
           (seq 1 (List.length (refined texts))).
Proof.
  intros Hb.
  destruct (batch_trace w texts start end_ tr fuel evs rs Hb)
    as (order & Hperm & Hrs & Hg & Hpl & Hsub & _).
  subst order. repeat split; auto.
  apply (Permutation_NoDup (Permutation_sym Hperm)), futures_nodup.
Qed.

Lemma batch_fetches_each_job_once_witness :
  gets (fst scenario_run) = [0; 1]
  /\ print_lines (fst scenario_run)
     = ["Job completed (1/4)"; "Job completed (2/4)"].
Proof.
  destruct (batch_fetches_each_job_once Scenario.cluster Scenario.lines
              Scenario.jan1 Scenario.jan31 Scenario.sink 2
              (fst scenario_run) (returned (snd scenario_run)))
    as (_ & _ & _ & _ & Hpl).
  - vm_compute. reflexivity.
  - split; [vm_compute; reflexivity |]. rewrite Hpl. vm_compute. reflexivity.
Defined.

(** X7: the results of a run that returns name every job once: their
    ["query"] fields are the job texts, in some order. *)
Theorem batch_results_cover_jobs w texts start end_ tr fuel evs rs :
  batch w texts start end_ (Some tr) fuel = (evs, Returned rs) ->
  Permutation (map (fun r => Dict.get r "query") rs)
              (map (fun t => Some (VStr t)) (refined texts)).
Proof.
  intros Hb.
  destruct (batch_trace w texts start end_ tr fuel evs rs Hb)
    as (order & Hperm & -> & _).
  rewrite map_map.
  rewrite (map_ext _ (fun h => Some (VStr (nth h (refined texts) ""))))
    by (intros h; apply job_result_query).
  apply Permutation_trans
    with (map (fun h => Some (VStr (nth h (refined texts) ""))) (futures texts)).
  { apply Permutation_map. exact Hperm. }
  rewrite <- (map_map (fun h => nth h (refined texts) "")
                      (fun t => Some (VStr t))).
  unfold futures. now rewrite map_nth_seq.
Qed.

Lemma batch_results_cover_jobs_witness :
  Permutation (map (fun r => Dict.get r "query") (returned (snd scenario_run)))
              [Some (VStr "Acme Corp"); Some (VStr "Globex")].
Proof.
  apply (batch_results_cover_jobs Scenario.cluster Scenario.lines
           Scenario.jan1 Scenario.jan31 Scenario.sink 2 (fst scenario_run)).
  vm_compute. reflexivity.
Defined.

(** X8: at most one job is drained per pass: a run that returns has
    waited, and slept one second, at least once per job. *)
Theorem batch_one_job_per_pass w texts start end_ tr fuel evs rs :
  batch w texts start end_ (Some tr) fuel = (evs, Returned rs) ->
  sleeps evs = waits evs
  /\ List.length (refined texts) <= waits evs
  /\ List.length rs <= waits evs.
Proof.
  intros Hb.
  destruct (batch_trace w texts start end_ tr fuel evs rs Hb)
    as (order & Hperm & -> & _ & _ & _ & Hsw & Hlen).
  rewrite length_map, (Permutation_length Hperm).
  unfold futures. rewrite length_seq. lia.
Qed.

Lemma batch_one_job_per_pass_witness :
  2 <= waits (fst scenario_run).
Proof.
  apply (batch_one_job_per_pass Scenario.cluster Scenario.lines
           Scenario.jan1 Scenario.jan31 Scenario.sink 2 (fst scenario_run)
           (returned (snd scenario_run))).
  vm_compute. reflexivity.
Defined.

(** X9: if every unit has finished by iteration [T] of the loop, a run
    with a tracer returns all N results after at most [T + N] passes. *)
Theorem batch_returns_within w texts start end_ tr T fuel :
  (forall h, h < List.length (refined texts) ->
     exists t, w_finish w h = Some t /\ t <= T) ->
  T + List.length (refined texts) <= fuel ->
  exists evs rs,
    batch w texts start end_ (Some tr) fuel = (evs, Returned rs)
    /\ List.length rs = List.length (refined texts)
    /\ waits evs <= T + List.length (refined texts).
Proof.
  intros Hfin Hfuel.
  assert (Hb : forall h, In h (unready (init texts)) ->
     h < List.length (refined texts)
     /\ exists t, w_finish w h = Some t /\ t <= T).
  { simpl. intros h Hin. apply in_futures in Hin. auto. }
  assert (Hn : List.length (futures texts) = List.length (refined texts)).
  { unfold futures. apply length_seq. }
  destruct (poll_drains w texts start end_ tr T fuel 0 (init texts) Hb)
    as (evs & order & Hp & Hperm).
  { simpl. lia. }
  pose proof (poll_passes_bound w texts start end_ tr T fuel 0 (init texts)
                _ _ Hb Hp) as Hw.
  simpl in Hw, Hperm, Hp.
  exists (submissions texts start end_ ++ evs),
         (map (job_result w texts start end_) order).
  split; [unfold batch; now rewrite Hp |]. split.
  - now rewrite length_map, (Permutation_length Hperm).
  - rewrite waits_app.
    destruct (submissions_only texts start end_) as (_ & _ & _ & _ & ->). lia.
Qed.

Lemma batch_returns_within_witness :
  exists evs rs,
    batch Scenario.cluster Scenario.lines Scenario.jan1 Scenario.jan31
          (Some Scenario.sink) 3 = (evs, Returned rs)
    /\ List.length rs = 2
    /\ waits evs <= 3.
Proof.
  apply (batch_returns_within Scenario.cluster Scenario.lines Scenario.jan1
           Scenario.jan31 Scenario.sink 1 3).
  - intros h Hlt. exists h. split; [reflexivity |]. simpl in Hlt. lia.
  - simpl. lia.
Defined.

(** Without a tracer the loop returns only if nothing was pending. *)
Lemma poll_none_returns w texts start end_ fuel : forall i st evs rs,
  (forall h, In h (unready st) -> h < List.length (refined texts)) ->
  poll w texts start end_ None fuel i st = (evs, Returned rs) ->
  unready st = [].
Proof.
  induction fuel as [| fuel IH]; intros i st evs rs Hb Hp; simpl in Hp;
    destruct (unready st) as [| h0 u0] eqn:Hu; try reflexivity;
    try discriminate.
  rewrite <- Hu in Hb |- *.
  destruct (ray_wait_cases w i (unready st)) as [[Hw _] | [h [Hw [Hin _]]]].
  - rewrite (iteration_idle w texts start end_ None i st) in Hp
      by now rewrite Hw.
    destruct (poll w texts start end_ None fuel (S i) st) as [evs' r] eqn:Hp'.
    inversion Hp; subst. exact (IH _ _ _ _ Hb Hp').
  - rewrite (iteration_no_tracer w texts start end_ i st h [] _ Hw (Hb h Hin))
      in Hp.
    discriminate.
Qed.

(** X10: called without a tracer, [batch] with at least one job never
    returns a result list; as soon as a unit is reported ready it raises
    [AttributeError], which happens whenever every unit finishes. *)
Theorem batch_needs_tracer w texts start end_ :
  refined texts <> [] ->
  (forall fuel evs rs,
     batch w texts start end_ None fuel <> (evs, Returned rs))
  /\ ((forall h, h < List.length (refined texts) -> resolves w h) ->
      exists fuel0, forall fuel, fuel0 <= fuel ->
        exists evs,
          batch w texts start end_ None fuel
          = (evs, Raised (AttributeError "NoneType" "markdown"))).
Proof.
  intros Hne. split.
  - intros fuel evs rs Hb. unfold batch in Hb.
    destruct (poll w texts start end_ None fuel 0 (init texts))
      as [evs' r] eqn:Hp.
    inversion Hb; subst.
    apply poll_none_returns in Hp.
    + simpl in Hp. unfold futures in Hp.
      destruct (refined texts); [congruence | discriminate].
    + simpl. intros h Hin. now apply in_futures.
  - intros Hres. now apply batch_without_tracer.
Qed.

Lemma batch_needs_tracer_witness :
  exists fuel0, forall fuel, fuel0 <= fuel ->
    exists evs,
      batch Scenario.calm ["Acme Corp"] Scenario.jan1 Scenario.jan31 None fuel
      = (evs, Raised (AttributeError "NoneType" "markdown")).
Proof.
  apply (batch_needs_tracer Scenario.calm ["Acme Corp"]).
  - vm_compute. discriminate.
  - intros h _. exists h. reflexivity.
Defined.



(** ** Submissions *)

Lemma no_submit_bind {A B} (c : M A) (k : A -> M B) :
  no_submit c -> (forall a, no_submit (k a)) -> no_submit (bind c k).
Proof.
  unfold no_submit, bind. destruct c as [evs [x | a]]; simpl; [auto |].
  intros Hc Hk. specialize (Hk a). destruct (k a) as [evs' r]. simpl in *.
  now rewrite submitted_app, Hc, Hk.
Qed.

Ltac no_submit_steps :=
  repeat match goal with
         | |- no_submit (bind _ _) => apply no_submit_bind; [| intros ?]
         | |- no_submit (if ?b then _ else _) => destruct b
         | |- no_submit (match ?x with _ => _ end) => destruct x
         | |- no_submit _ => reflexivity
         end.

Lemma iteration_no_submit w texts start end_ tracer i st :
  no_submit (iteration w texts start end_ tracer i st).
Proof.
  unfold iteration, ray_get, getitem, truediv, tracer_markdown, tracer_html.
  destruct (ray_wait w i (unready st)) as [ready u].
  no_submit_steps.
Qed.

Lemma poll_no_submit w texts start end_ tracer fuel : forall i st,
  submitted (fst (poll w texts start end_ tracer fuel i st)) = [].
Proof.
  induction fuel as [| fuel IH]; intros i st; simpl;
    destruct (unready st); try reflexivity.
  pose proof (iteration_no_submit w texts start end_ tracer i st) as Hit.
  unfold no_submit in Hit.
  destruct (iteration w texts start end_ tracer i st) as [evs [e | st']];
    simpl in *; [assumption |].
  specialize (IH (S i) st').
  destruct (poll w texts start end_ tracer fuel (S i) st') as [evs' r].
  simpl in *. now rewrite submitted_app, Hit, IH.
Qed.

Lemma submit_texts_app a b :
  submit_texts (a ++ b) = submit_texts a ++ submit_texts b.
Proof.
  induction a as [| ev r IH]; simpl; [reflexivity |].
  destruct ev; simpl; now rewrite IH.
Qed.

Lemma submit_texts_none evs : submitted evs = [] -> submit_texts evs = [].
Proof.
  unfold submitted. induction evs as [| ev r IH]; simpl; [reflexivity |].
  destruct ev; simpl; try discriminate; exact IH.
Qed.

Lemma submit_texts_jobs start end_ (l : list string) : forall n,
  submit_texts
    (map (fun ht => Submit (fst ht) (snd ht) start end_)
         (combine (seq n (List.length l)) l))
  = l.
Proof.
  induction l as [| t r IH]; intros n; simpl; [reflexivity |].
  now rewrite IH.
Qed.

Lemma submit_texts_of_batch w texts start end_ tracer fuel :
  submit_texts (fst (batch w texts start end_ tracer fuel)) = refined texts.
Proof.
  unfold batch.
  pose proof (poll_no_submit w texts start end_ tracer fuel 0 (init texts))
    as Hns.
  destruct (poll w texts start end_ tracer fuel 0 (init texts)) as [evs r].
  simpl in *.
  rewrite submit_texts_app, (submit_texts_none evs Hns), app_nil_r.
  unfold submissions, futures. apply submit_texts_jobs.
Qed.

(** X12: whatever the tracer and the executor do, and however long the
    loop runs, [batch] submits one job per non-blank line, with the trimmed
    text and in the order of the lines, before the first wait, and it
    never submits anything afterwards. *)
Theorem batch_submits_first w texts start end_ tracer fuel :
  submit_texts (fst (batch w texts start end_ tracer fuel)) = refined texts
  /\ exists evs,
       fst (batch w texts start end_ tracer fuel)
       = submissions texts start end_ ++ evs
       /\ submitted evs = []
       /\ List.length (submissions texts start end_)
          = List.length (refined texts).
Proof.
  pose proof (poll_no_submit w texts start end_ tracer fuel 0 (init texts))
    as Hns.
  pose proof (submit_texts_of_batch w texts start end_ tracer fuel) as Haux.
  unfold batch in *.
  destruct (poll w texts start end_ tracer fuel 0 (init texts)) as [evs r].
  simpl in *. split; [exact Haux |].
  exists evs. repeat split; [assumption |].
  unfold submissions, futures.
  now rewrite length_map, length_combine, length_seq, Nat.min_id.
Qed.

(** ** From the form to the results *)

(** X13: through the service, a form with parsing dates, start not after
    end, and N non-blank lines whose units all finish yields N results, one
    per line; the jobs submitted are the trimmed lines in order with the
    two dates, and the printed counter runs from 1/N to N/N: the lines that
    [enter] passes on are all jobs. *)
Theorem serve_runs_every_line strptime w inputs q s_text e_text s e tr :
  Dict.get_default inputs "texts" (VStr "") = VStr q ->
  Dict.get inputs "start" = Some (VStr s_text) -> strptime s_text = inr s ->
  Dict.get inputs "end" = Some (VStr e_text) -> strptime e_text = inr e ->
  datetime_gt s e = false ->
  refine (PyStr.split PyStr.LF q) <> [] ->
  (forall h, h < List.length (refine (PyStr.split PyStr.LF q)) ->
     resolves w h) ->
  exists fuel0, forall fuel, fuel0 <= fuel ->
    exists evs rs,
      serve strptime w inputs tr fuel = (evs, Returned rs)
      /\ List.length rs = List.length (refine (PyStr.split PyStr.LF q))
      /\ submit_texts evs = refine (PyStr.split PyStr.LF q)
      /\ print_lines evs
         = map (fun k => job_line k (List.length (refine (PyStr.split PyStr.LF q))))
               (seq 1 (List.length (refine (PyStr.split PyStr.LF q))))
      /\ Permutation (map (fun r => Dict.get r "query") rs)
                     (map (fun t => Some (VStr t))
                          (refine (PyStr.split PyStr.LF q))).
Proof.
  intros Hq Hs Hps He Hpe Hgt Hne Hres.
  pose proof (enter_parsed strptime inputs q s_text e_text s e
                Hq Hs Hps He Hpe) as Hen.
  rewrite Hgt in Hen.
  set (jobs := refine (PyStr.split PyStr.LF q)) in *.
  assert (Hfix : refined jobs = jobs).
  { unfold refined, jobs. apply refine_fixed, refine_trimmed. }
  destruct (batch_returns w jobs s e tr) as [fuel0 Hret].
  { rewrite Hfix. exact Hres. }
  exists fuel0. intros fuel Hfuel.
  destruct (Hret fuel Hfuel) as (evs & order & Hb & _).
  assert (Hserve : serve strptime w inputs tr fuel = batch w jobs s e (Some tr) fuel).
  { unfold serve. rewrite Hen. destruct jobs as [| t ts]; [congruence |].
    cbn [launch_inputs]. unfold run_batch. simpl.
    destruct (batch w (t :: ts) s e (Some tr) fuel). reflexivity. }
  exists evs, (map (job_result w jobs s e) order).
  rewrite Hserve. split; [exact Hb |].
  destruct (batch_trace w jobs s e tr fuel _ _ Hb)
    as (order' & Hperm & Hrs & _ & Hpl & _).
  pose proof (submit_texts_of_batch w jobs s e (Some tr) fuel) as Hsub.
  rewrite Hb in Hsub. simpl in Hsub.
  rewrite Hfix in *. repeat split; try assumption.
  - rewrite Hrs, length_map, (Permutation_length Hperm). unfold futures.
    now rewrite length_seq, Hfix.
  - rewrite Hrs, map_map.
    rewrite (map_ext _ (fun h => Some (VStr (nth h jobs ""))))
      by (intros h; rewrite job_result_query; now rewrite Hfix).
    apply Permutation_trans
      with (map (fun h => Some (VStr (nth h jobs ""))) (futures jobs)).
    { apply Permutation_map. exact Hperm. }
    rewrite <- (map_map (fun h => nth h jobs "") (fun t => Some (VStr t))).
    unfold futures. now rewrite Hfix, map_nth_seq.
Qed.

Lemma serve_runs_every_line_witness :
  exists fuel0, forall fuel, fuel0 <= fuel ->
    exists evs rs,
      serve Scenario.strptime Scenario.cluster scenario_form Scenario.sink fuel
      = (evs, Returned rs)
      /\ List.length rs = 2
      /\ submit_texts evs = ["Acme Corp"; "Globex"]
      /\ print_lines evs = ["Job completed (1/2)"; "Job completed (2/2)"].
Proof.
  destruct (serve_runs_every_line Scenario.strptime Scenario.cluster
              scenario_form scenario_text "2024-01-01" "2024-01-31"
              Scenario.jan1 Scenario.jan31 Scenario.sink)
    as [fuel0 H]; try reflexivity.
  - vm_compute. discriminate.
  - intros h _. exists h. reflexivity.
  - exists fuel0. intros fuel Hfuel.
    destruct (H fuel Hfuel) as (evs & rs & Hs & Hl & Hsub & Hpl & _).
    exists evs, rs. repeat split; assumption.
Defined.

(** ** The completion line *)

Lemma format_plain x :
  plain x = true -> PyFloat.format_0f x = PyStr.of_Z (whole x).
Proof.
  destruct x as [[] | [] | | [] m e]; try discriminate; reflexivity.
Qed.

Lemma percents_checked_sound bound :
  percents_checked bound = true ->
  forall total k, 1 <= total <= bound -> k <= total ->
    percent_checked total k = true.
Proof.
  unfold percents_checked. intros H total k Ht Hk.
  rewrite forallb_forall in H. specialize (H total). rewrite in_seq in H.
  assert (Hc : forallb (percent_checked total) (seq 0 (S total)) = true)
    by (apply H; lia).
  rewrite forallb_forall in Hc. apply Hc. rewrite in_seq. lia.
Qed.

(** What a successful check of [k] of [total] says. *)
Lemma percent_checked_spec total k :
  percent_checked total k = true ->
  fraction_line k total
  = (PyStr.of_nat k ++ "/" ++ PyStr.of_nat total ++ " = "
     ++ PyStr.of_Z (percent k total) ++ "%")%string
  /\ (Z.abs (2 * percent k total * Z.of_nat total - 200 * Z.of_nat k)
      <= Z.of_nat total)%Z
  /\ (k = total -> percent k total = 100%Z)
  /\ (k < total -> (percent k total <= percent (S k) total)%Z).
Proof.
  unfold percent_checked. cbv zeta. fold (percent k total). intros Hck.
  apply andb_prop in Hck as [Hck H4]. apply andb_prop in Hck as [Hck H3].
  apply andb_prop in Hck as [H1 H2].
  apply format_plain in H1. apply Z.leb_le in H2.
  fold (percent k total) in H1.
  split; [| split; [| split]].
  - unfold fraction_line. fold (percent_float k total). now rewrite H1.
  - exact H2.
  - intros ->. rewrite Nat.eqb_refl in H3. now apply Z.eqb_eq.
  - intros Hlt. apply Nat.ltb_lt in Hlt. rewrite Hlt in H4.
    now apply Z.leb_le.
Qed.

Lemma percents_checked_128 : percents_checked 128 = true.
Proof. vm_compute. reflexivity. Qed.

(** X14: for up to 128 input lines, the completion line of the [k]-th
    completed job shows a whole percent within one half of
    [100 k / total], total being the number of input lines; the percent is
    100 when [k] equals the total and never drops from one completed job
    to the next. *)
Theorem completion_line_nearest_percent k total :
  1 <= total <= 128 -> k <= total ->
  fraction_line k total
  = (PyStr.of_nat k ++ "/" ++ PyStr.of_nat total ++ " = "
     ++ PyStr.of_Z (percent k total) ++ "%")%string
  /\ (Z.abs (2 * percent k total * Z.of_nat total - 200 * Z.of_nat k)
      <= Z.of_nat total)%Z
  /\ (k = total -> percent k total = 100%Z)
  /\ (k < total -> (percent k total <= percent (S k) total)%Z).
Proof.
  intros Ht Hk. apply percent_checked_spec.
  exact (percents_checked_sound 128 percents_checked_128 total k Ht Hk).
Qed.

Lemma completion_line_nearest_percent_witness :
  fraction_line 1 8 = "1/8 = 12%" /\ percent 8 8 = 100%Z.
Proof.
  destruct (completion_line_nearest_percent 1 8) as (H1 & _); [lia | lia |].
  destruct (completion_line_nearest_percent 8 8) as (_ & _ & H3 & _);
    [lia | lia |].
  split; [rewrite H1; vm_compute; reflexivity | now apply H3].
Defined.
